(** * BulkChat: the Streamlit chat console (streamlit.py)

    A shallow embedding of [streamlit.py]: the four HTTP helpers
    ([upload_pdfs], [query_rag], [check_api_status], [get_available_modes])
    and the page script that drives them (sidebar, transcript display and
    chat input handler).

    The script is effectful Python.  It is embedded in a small monad that
    threads the observable state (the requests sent, the widgets written,
    the session transcript) and carries Python exceptions.  A raised
    exception keeps the state reached so far, as in Python. *)

From Stdlib Require Import String Ascii List ZArith Bool Lia Sorted.
Import ListNotations.
Open Scope string_scope.
Open Scope list_scope.

Set Warnings "-register-all".

(** ** Python values *)

(** A Python [float] decoded from JSON: a dyadic rational [m / 2^d],
    negative zero, an infinity or a NaN. *)
Inductive pyfloat : Type :=
| FDyadic (m : Z) (d : nat)
| FNegZero
| FInf (negative : bool)
| FNaN.

(** What [response.json()] can return, and what the script builds from it.
    A [PDict] lists the items of a dict in insertion order; lookups take the
    first item with the key (a decoded JSON object has each key once). *)
Inductive pyvalue : Type :=
| PNone
| PBool (b : bool)
| PInt (z : Z)
| PFloat (f : pyfloat)
| PStr (s : string)
| PList (l : list pyvalue)
| PDict (d : list (string * pyvalue)).

(** ** Exceptions and results *)

Inductive exn : Type :=
| RequestException (msg : string)
    (* requests.exceptions.RequestException or a subclass; msg is str(e) *)
| TypeError
| KeyError (key : string)
| AttributeError
| ValueError
| OtherException (msg : string).
    (* any other exception class a library call may raise *)

Inductive result (A : Type) : Type :=
| Ok (a : A)
| Raise (e : exn).
Arguments Ok {A} a.
Arguments Raise {A} e.

Definition rbind {A B} (r : result A) (k : A -> result B) : result B :=
  match r with
  | Ok a => k a
  | Raise e => Raise e
  end.

Declare Scope py_scope.
Delimit Scope py_scope with py.
Notation "x <~ r ;; k" := (rbind r (fun x => k))
  (at level 100, r at next level, right associativity) : py_scope.
Open Scope py_scope.

(** ** The Python operations the script applies to decoded JSON *)

(** First item of a dict with the given key. *)
Fixpoint dict_get (key : string) (d : list (string * pyvalue)) : option pyvalue :=
  match d with
  | [] => None
  | (k, v) :: d' => if String.eqb k key then Some v else dict_get key d'
  end.

(** [v.get(key, default)]: only a dict has the method. *)
Definition py_get (v : pyvalue) (key : string) (default : pyvalue)
    : result pyvalue :=
  match v with
  | PDict d =>
      match dict_get key d with
      | Some x => Ok x
      | None => Ok default
      end
  | _ => Raise AttributeError
  end.

(** [v[key]] with a string key. *)
Definition py_getitem (v : pyvalue) (key : string) : result pyvalue :=
  match v with
  | PDict d =>
      match dict_get key d with
      | Some x => Ok x
      | None => Raise (KeyError key)
      end
  | _ => Raise TypeError
  end.

(** [v == "literal"] *)
Definition py_eq_str (v : pyvalue) (s : string) : bool :=
  match v with
  | PStr t => String.eqb t s
  | _ => false
  end.

(** [p in s] on two strings. *)
Fixpoint is_substring (p s : string) : bool :=
  if String.prefix p s then true
  else match s with
       | EmptyString => false
       | String _ s' => is_substring p s'
       end.

(** ["literal" in v]: key test on a dict, membership on a list, substring
    test on a string; the other JSON values are not containers. *)
Definition py_contains (key : string) (v : pyvalue) : result bool :=
  match v with
  | PDict d =>
      match dict_get key d with
      | Some _ => Ok true
      | None => Ok false
      end
  | PList l => Ok (existsb (fun x => py_eq_str x key) l)
  | PStr s => Ok (is_substring key s)
  | _ => Raise TypeError
  end.

Fixpoint chars (s : string) : list pyvalue :=
  match s with
  | EmptyString => []
  | String c s' => PStr (String c EmptyString) :: chars s'
  end.

(** [for x in v]: the elements of a list, the keys of a dict, the characters
    of a string (a [string] is read as its sequence of characters). *)
Definition py_iter (v : pyvalue) : result (list pyvalue) :=
  match v with
  | PList l => Ok l
  | PDict d => Ok (map (fun kv => PStr (fst kv)) d)
  | PStr s => Ok (chars s)
  | _ => Raise TypeError
  end.

(** *** Dict keys

    Hashable values are compared through a canonical key, equal for the
    values Python's [==] and [hash] identify ([True == 1 == 1.0]); a NaN
    equals nothing, itself included.  A dict lookup and [list.index] test
    identity before [==]; the decoder returns one and the same object for
    every [NaN] of a body, so there a NaN does match a NaN. *)
Inductive hash_key : Type :=
| KNone
| KNum (m : Z) (d : nat)
| KInf (negative : bool)
| KNaN
| KStr (s : string).

Fixpoint reduce_dyadic (m : Z) (d : nat) : Z * nat :=
  match d with
  | O => (m, O)
  | S d' => if Z.even m then reduce_dyadic (m / 2)%Z d' else (m, d)
  end.

(** [None] for an unhashable value (list, dict). *)
Definition key_of (v : pyvalue) : option hash_key :=
  match v with
  | PNone => Some KNone
  | PBool b => Some (KNum (if b then 1 else 0) 0)
  | PInt z => Some (KNum z 0)
  | PFloat (FDyadic m d) => let (m', d') := reduce_dyadic m d in Some (KNum m' d')
  | PFloat FNegZero => Some (KNum 0 0)
  | PFloat (FInf n) => Some (KInf n)
  | PFloat FNaN => Some KNaN
  | PStr s => Some (KStr s)
  | PList _ => None
  | PDict _ => None
  end.

Definition hashable (v : pyvalue) : bool :=
  match key_of v with
  | Some _ => true
  | None => false
  end.

Definition key_eqb (a b : hash_key) : bool :=
  match a, b with
  | KNone, KNone => true
  | KNum m d, KNum m' d' => Z.eqb m m' && Nat.eqb d d'
  | KInf n, KInf n' => Bool.eqb n n'
  | KStr s, KStr s' => String.eqb s s'
  | _, _ => false
  end.

(** [a == b] on hashable values. *)
Definition py_eq (a b : pyvalue) : bool :=
  match key_of a, key_of b with
  | Some ka, Some kb => key_eqb ka kb
  | _, _ => false
  end.

(** [a is b or a == b] on hashable decoded values: the test of a dict
    lookup and of [list.index]. *)
Definition py_same (a b : pyvalue) : bool :=
  match key_of a, key_of b with
  | Some KNaN, Some KNaN => true
  | _, _ => py_eq a b
  end.

(** A dict with arbitrary hashable keys, in insertion order. *)
Definition odict : Type := list (pyvalue * pyvalue).

(** [d[k] = v]: a key that is the same keeps its place and takes the new
    value. *)
Fixpoint odict_set (k v : pyvalue) (d : odict) : odict :=
  match d with
  | [] => [(k, v)]
  | (k', v') :: d' =>
      if py_same k' k then (k', v) :: d' else (k', v') :: odict_set k v d'
  end.

(** [list(d.keys())] *)
Definition odict_keys (d : odict) : list pyvalue := map fst d.

(** [k in d] *)
Definition odict_contains (k : pyvalue) (d : odict) : result bool :=
  if hashable k then Ok (existsb (fun k' => py_same k' k) (odict_keys d))
  else Raise TypeError.

(** [l.index(x)] *)
Fixpoint list_index (x : pyvalue) (l : list pyvalue) : result nat :=
  match l with
  | [] => Raise ValueError
  | y :: l' => if py_same y x then Ok O else i <~ list_index x l' ;; Ok (S i)
  end.

(** ** The outside world *)

(** An uploaded file as the script reads it: [file.name], [file.getvalue()]. *)
Record file : Type := { name : string; getvalue : list Byte.byte }.

(** The requests the script can send. *)
Inductive request : Type :=
| PostFiles (url : string)
            (files : list (string * (string * list Byte.byte * string)))
| PostJson (url : string) (body : pyvalue)
| Get (url : string).

(** [json.dumps(v, allow_nan=False)] succeeds: no NaN and no infinity in
    [v]. *)
Fixpoint json_compliant (v : pyvalue) : bool :=
  match v with
  | PFloat (FInf _) => false
  | PFloat FNaN => false
  | PList l => forallb json_compliant l
  | PDict d => forallb (fun kv => json_compliant (snd kv)) d
  | _ => true
  end.

(** [requests] serialises a [json=] body before anything is sent, and
    raises [InvalidJSONError], a [RequestException], when that fails. *)
Definition sendable (r : request) : bool :=
  match r with
  | PostJson _ body => json_compliant body
  | _ => true
  end.

(** The text of that error, as [json.dumps] words it. *)
Definition json_error_text : string :=
  "Out of range float values are not JSON compliant".

(** A [requests.Response] as far as the script looks at it: the outcome of
    [response.raise_for_status()] and of [response.json()]. *)
Record Response : Type :=
  { raise_for_status : result unit;
    json : result pyvalue }.

(** One transcript entry, [{"role": ..., "content": ...}]. *)
Record message : Type := { role : string; content : pyvalue }.

(** What the page shows, in the order the script writes it.  The Streamlit
    calls themselves are taken to succeed on every argument; containers
    ([with st.sidebar], [with st.chat_message(...)]) are recorded when they
    are opened. *)
Inductive ui_event : Type :=
| UiElement (kind : string) (body : pyvalue)
| UiChatMessage (who : string)
| UiSpinner (text : string)
| UiSelectbox (label : string) (labels : list string) (index : nat).

(** The state a script run acts on.  [messages = None] is a session state
    without the key ["messages"]. *)
Record state : Type :=
  { net_log : list request;
    ui_log : list ui_event;
    messages : option (list message) }.

(** ** The monad of script fragments *)

Definition M (A : Type) : Type := state -> result A * state.

Definition ret {A} (a : A) : M A := fun s => (Ok a, s).

Definition raise {A} (e : exn) : M A := fun s => (Raise e, s).

Definition lift {A} (r : result A) : M A := fun s => (r, s).

Definition bind {A B} (m : M A) (k : A -> M B) : M B :=
  fun s =>
    match m s with
    | (Ok a, s') => k a s'
    | (Raise e, s') => (Raise e, s')
    end.

(** [try: body  except ...: handler].  [handler e] is [None] when the except
    clause does not match [e], which then propagates. *)
Definition try_except {A} (body : M A) (handler : exn -> option (M A)) : M A :=
  fun s =>
    match body s with
    | (Ok a, s') => (Ok a, s')
    | (Raise e, s') =>
        match handler e with
        | Some h => h s'
        | None => (Raise e, s')
        end
    end.

(** [except requests.exceptions.RequestException as e: h (str(e))] *)
Definition except_RequestException {A} (h : string -> M A) (e : exn)
    : option (M A) :=
  match e with
  | RequestException msg => Some (h msg)
  | _ => None
  end.

(** A bare [except:] *)
Definition except_all {A} (h : M A) (e : exn) : option (M A) := Some h.

Notation "x <- m ;; k" := (bind m (fun x => k))
  (at level 100, m at next level, right associativity) : py_scope.
Notation "m ;;; k" := (bind m (fun _ => k))
  (at level 100, right associativity) : py_scope.

Definition st_emit (e : ui_event) : M unit :=
  fun s => (Ok tt, {| net_log := net_log s;
                      ui_log := ui_log s ++ [e];
                      messages := messages s |}).

(** [st.session_state.messages.append(m)] *)
Definition messages_append (m : message) : M unit :=
  fun s =>
    match messages s with
    | Some ms => (Ok tt, {| net_log := net_log s;
                            ui_log := ui_log s;
                            messages := Some (ms ++ [m]) |})
    | None => (Raise AttributeError, s)
    end.

(** ** Configuration *)

Definition API_URL : string := "https://sweeping-moth-probably.ngrok-free.app/".

Section App.

(** The remote service and the network: what a request meets.  One script
    run sends at most one request to each endpoint. *)
Variable net : request -> result Response.

(** [requests.post] / [requests.get]: the request is sent, then the call
    returns a response or raises; a request whose JSON body cannot be
    serialised is not sent, the call raises at once. *)
Definition send (r : request) : M Response :=
  fun s =>
    (if sendable r then net r else Raise (RequestException json_error_text),
     {| net_log := net_log s ++ (if sendable r then [r] else []);
        ui_log := ui_log s;
        messages := messages s |}).

Definition error_result (msg : string) : pyvalue :=
  PDict [("status", PStr "error"); ("message", PStr msg)].

(** What a call yields: the body may fail to serialise, the request may
    fail, the status check may raise, the body may fail to decode. *)
Definition fetch_result (r : request) : result pyvalue :=
  if sendable r then
    response <~ net r ;;
    _ <~ raise_for_status response ;;
    json response
  else Raise (RequestException json_error_text).

(** The body shared by the four helpers:
    [response = requests.<verb>(...); response.raise_for_status();
     return response.json()] *)
Definition fetch_json (r : request) : M pyvalue :=
  response <- send r ;;
  lift (raise_for_status response) ;;;
  lift (json response).

Definition upload_pdfs (files : list file) : M pyvalue :=
  match files with
  | [] => ret (error_result "No files selected")
  | _ =>
      let files_data :=
        map (fun f => ("files", (name f, getvalue f, "application/pdf"))) files in
      try_except
        (fetch_json (PostFiles (API_URL ++ "/upload_pdfs/")%string files_data))
        (except_RequestException
           (fun e => ret (error_result ("API error: " ++ e)%string)))
  end.

(** [mode] is always passed by the caller (the default ["hybrid"] of the
    signature is not used by the script). *)
Definition query_rag (query : string) (mode : pyvalue) : M pyvalue :=
  try_except
    (fetch_json (PostJson (API_URL ++ "/query/")%string
                          (PDict [("query", PStr query); ("mode", mode)])))
    (except_RequestException
       (fun e => ret (error_result ("API error: " ++ e)%string))).

Definition check_api_status : M pyvalue :=
  try_except
    (fetch_json (Get (API_URL ++ "/status/")%string))
    (except_all (ret (error_result "API is not available"))).

Definition mode_descriptor (n d : string) : pyvalue :=
  PDict [("name", PStr n); ("description", PStr d)].

Definition default_modes : pyvalue :=
  PDict
    [("available_modes",
      PList
        [mode_descriptor "hybrid" "Combines local and global approaches";
         mode_descriptor "local"
           "Uses local context for retrieving relevant information";
         mode_descriptor "global"
           "Uses global context for broader information retrieval";
         mode_descriptor "naive"
           "Simple text matching without context awareness";
         mode_descriptor "mix" "Mix of different search strategies"]);
     ("default_mode", PStr "hybrid")].

Definition get_available_modes : M pyvalue :=
  try_except
    (fetch_json (Get (API_URL ++ "/modes/")%string))
    (except_all (ret default_modes)).

(** ** The page script *)

(** Python's [str] on the values that are not strings (numbers, [None],
    containers). *)
Variable builtin_str : pyvalue -> string.

(** [f"{v}"] *)
Definition format_value (v : pyvalue) : string :=
  match v with
  | PStr s => s
  | _ => builtin_str v
  end.

(** [if "messages" not in st.session_state: st.session_state.messages = []] *)
Definition init_session : M unit :=
  fun s =>
    match messages s with
    | Some _ => (Ok tt, s)
    | None => (Ok tt, {| net_log := net_log s;
                         ui_log := ui_log s;
                         messages := Some [] |})
    end.

(** [api_ready = api_status.get("status") == "ready"] *)
Definition api_ready_of (api_status : pyvalue) : result bool :=
  status <~ py_get api_status "status" PNone ;;
  Ok (py_eq_str status "ready").

(** ["✅" if file_result["status"] == "success" else "❌"] *)
Definition status_icon (file_result : pyvalue) : result string :=
  status <~ py_getitem file_result "status" ;;
  Ok (if py_eq_str status "success" then "✅" else "❌").

(** [for file_result in ...: st.text(f"{status_icon} {file_result['file']}")] *)
Fixpoint show_file_results (results : list pyvalue) : M unit :=
  match results with
  | [] => ret tt
  | file_result :: rest =>
      icon <- lift (status_icon file_result) ;;
      f <- lift (py_getitem file_result "file") ;;
      st_emit (UiElement "text" (PStr (icon ++ " " ++ format_value f)%string)) ;;;
      show_file_results rest
  end.

(** The body of [if st.button("Process PDFs", ...)]. *)
Definition process_pdfs (uploaded_files : list file) : M unit :=
  st_emit (UiSpinner "Processing PDFs...") ;;;
  result <- upload_pdfs uploaded_files ;;
  status <- lift (py_get result "status" PNone) ;;
  if py_eq_str status "success" then
    msg <- lift (py_get result "message" PNone) ;;
    st_emit (UiElement "success" msg) ;;;
    has_details <- lift (py_contains "details" result) ;;
    if has_details then
      details <- lift (py_getitem result "details") ;;
      has_results <- lift (py_contains "results" details) ;;
      if has_results then
        results <- lift (py_getitem details "results") ;;
        items <- lift (py_iter results) ;;
        show_file_results items
      else ret tt
    else ret tt
  else
    msg <- lift (py_get result "message" (PStr "Unknown error")) ;;
    st_emit (UiElement "error" msg).

(** [{mode["name"]: mode["description"] for mode in ...}], filling [acc]. *)
Fixpoint mode_options_of (modes : list pyvalue) (acc : odict) : result odict :=
  match modes with
  | [] => Ok acc
  | mode :: rest =>
      k <~ py_getitem mode "name" ;;
      v <~ py_getitem mode "description" ;;
      if hashable k then mode_options_of rest (odict_set k v acc)
      else Raise TypeError
  end.

(** [list(mode_options.keys()).index(default_mode)
     if default_mode in mode_options else 0] *)
Definition default_index (default_mode : pyvalue) (mode_options : odict)
    : result nat :=
  present <~ odict_contains default_mode mode_options ;;
  if present then list_index default_mode (odict_keys mode_options)
  else Ok O.

(** [f"{x} - {mode_options[x]}"] for each option [x]. *)
Definition mode_labels (mode_options : odict) : list string :=
  map (fun kv => (format_value (fst kv) ++ " - " ++ format_value (snd kv))%string)
      mode_options.

(** The "Settings" block.  [choice] is the option the user has picked in
    the selector, if any; otherwise the selector holds the option at
    [index] ([None] when there is no option). *)
Definition select_mode (choice : option pyvalue) : M pyvalue :=
  st_emit (UiElement "header" (PStr "Settings")) ;;;
  modes <- get_available_modes ;;
  available <- lift (py_get modes "available_modes" (PList [])) ;;
  items <- lift (py_iter available) ;;
  mode_options <- lift (mode_options_of items []) ;;
  default_mode <- lift (py_get modes "default_mode" (PStr "hybrid")) ;;
  index <- lift (default_index default_mode mode_options) ;;
  st_emit (UiSelectbox "Search Mode" (mode_labels mode_options) index) ;;;
  ret (match choice with
       | Some picked => picked
       | None => nth index (odict_keys mode_options) PNone
       end).

(** The "System Status" block. *)
Definition show_status (api_ready : bool) : M unit :=
  st_emit (UiElement "subheader" (PStr "System Status")) ;;;
  let status_color := if api_ready then "green" else "red" in
  let status_text := if api_ready then "Ready" else "Not Ready" in
  st_emit (UiElement "markdown"
             (PStr ("API: <span style='color:" ++ status_color ++ ";'>"
                      ++ status_text ++ "</span>")%string)) ;;;
  if negb api_ready
  then st_emit (UiElement "info" (PStr "System is not ready. Upload some PDFs broo."))
  else ret tt.

(** [for message in st.session_state.messages: ...] *)
Fixpoint show_messages (ms : list message) : M unit :=
  match ms with
  | [] => ret tt
  | m :: rest =>
      st_emit (UiChatMessage (role m)) ;;;
      st_emit (UiElement "write" (content m)) ;;;
      show_messages rest
  end.

Definition display_chat : M unit :=
  st_emit (UiElement "subheader" (PStr "Chat")) ;;;
  fun s =>
    match messages s with
    | Some ms => show_messages ms s
    | None => (Raise AttributeError, s)
    end.

Definition not_ready_warning : string := "Upload and process some PDFs broo!".

(** The body of [if prompt := st.chat_input(...)]. *)
Definition chat_input_handler (api_ready : bool) (selected_mode : pyvalue)
    (prompt : string) : M unit :=
  messages_append {| role := "user"; content := PStr prompt |} ;;;
  st_emit (UiChatMessage "user") ;;;
  st_emit (UiElement "write" (PStr prompt)) ;;;
  st_emit (UiChatMessage "assistant") ;;;
  st_emit (UiSpinner "Thinking...") ;;;
  if api_ready then
    response <- query_rag prompt selected_mode ;;
    has_response <- lift (py_contains "response" response) ;;
    if has_response then
      result <- lift (py_getitem response "response") ;;
      st_emit (UiElement "write" result) ;;;
      messages_append {| role := "assistant"; content := result |}
    else
      error_msg <- lift (py_get response "message" (PStr "Unknown error occurred")) ;;
      st_emit (UiElement "error" (PStr ("Error: " ++ format_value error_msg)%string)) ;;;
      messages_append {| role := "assistant";
                         content := PStr ("Error: " ++ format_value error_msg)%string |}
  else
    st_emit (UiElement "warning" (PStr not_ready_warning)) ;;;
    messages_append {| role := "assistant"; content := PStr not_ready_warning |}.

(** What the user did before this run of the script. *)
Record ui_input : Type :=
  { uploaded_files : list file;
    button_clicked : bool;
    selectbox_choice : option pyvalue;
    chat_input : option string }.

(** [api_status = check_api_status()] and the readiness read from it. *)
Definition fetch_api_ready : M bool :=
  api_status <- check_api_status ;;
  lift (api_ready_of api_status).

(** One run of the script, top to bottom ([st.set_page_config] writes no
    element).  The button is modelled as clickable whatever
    [uploaded_files] holds. *)
Definition app (i : ui_input) : M unit :=
  st_emit (UiElement "title" (PStr "LightRAG - BulkChat")) ;;;
  init_session ;;;
  api_ready <- fetch_api_ready ;;
  st_emit (UiElement "header" (PStr "Upload PDFs")) ;;;
  (if button_clicked i then process_pdfs (uploaded_files i) else ret tt) ;;;
  st_emit (UiElement "divider" PNone) ;;;
  selected_mode <- select_mode (selectbox_choice i) ;;
  st_emit (UiElement "divider" PNone) ;;;
  show_status api_ready ;;;
  display_chat ;;;
  (match chat_input i with
   | Some (String c p) => chat_input_handler api_ready selected_mode (String c p)
   | _ => ret tt
   end) ;;;
  st_emit (UiElement "markdown" (PStr "---")) ;;;
  st_emit (UiElement "caption"
             (PStr "Upload A LOT of PDF's cause u can't read on your own!")).

End App.

(** ** Vocabulary of the properties *)

(** The state after a call with request [r]. *)
Definition log_request (r : request) (s : state) : state :=
  {| net_log := net_log s ++ (if sendable r then [r] else []);
     ui_log := ui_log s;
     messages := messages s |}.

(** The request each helper sends. *)
Definition upload_request (files : list file) : request :=
  PostFiles (API_URL ++ "/upload_pdfs/")%string
    (map (fun f => ("files", (name f, getvalue f, "application/pdf"))) files).

Definition query_request (query : string) (mode : pyvalue) : request :=
  PostJson (API_URL ++ "/query/")%string
    (PDict [("query", PStr query); ("mode", mode)]).

Definition status_request : request := Get (API_URL ++ "/status/")%string.

Definition modes_request : request := Get (API_URL ++ "/modes/")%string.

(** A result of the shape [{"status": "error", "message": ...}]. *)
Definition is_error_result (v : pyvalue) : bool :=
  match v with
  | PDict d =>
      match dict_get "status" d, dict_get "message" d with
      | Some status, Some _ => py_eq_str status "error"
      | _, _ => false
      end
  | _ => false
  end.

Definition user_entry (prompt : string) : message :=
  {| role := "user"; content := PStr prompt |}.

Definition assistant_entry (c : pyvalue) : message :=
  {| role := "assistant"; content := c |}.

(** What [upload_pdfs] and [query_rag] make of the outcome of their call. *)
Definition caught (r : result pyvalue) : result pyvalue :=
  match r with
  | Raise (RequestException msg) => Ok (error_result ("API error: " ++ msg)%string)
  | _ => r
  end.

(** The assistant entry the chat handler derives from a dict [d] returned by
    [query_rag]. *)
Definition reply_entry (str : pyvalue -> string) (d : list (string * pyvalue))
    : message :=
  match dict_get "response" d with
  | Some answer => assistant_entry answer
  | None =>
      match dict_get "message" d with
      | Some m => assistant_entry (PStr ("Error: " ++ format_value str m)%string)
      | None => assistant_entry (PStr "Error: Unknown error occurred")
      end
  end.

(** A script fragment that only appends to the transcript, whether it
    returns or raises. *)
Definition grows {A} (m : M A) : Prop :=
  forall s ms,
    messages s = Some ms ->
    exists added, messages (snd (m s)) = Some (ms ++ added).

(** What the display loop writes for one entry. *)
Definition entry_view (m : message) : list ui_event :=
  [UiChatMessage (role m); UiElement "write" (content m)].

(** A session: the script is run once per user action, each run against the
    world of its moment, on the session state the previous run left. *)
Fixpoint session (str : pyvalue -> string)
    (runs : list ((request -> result Response) * ui_input)) (s : state) : state :=
  match runs with
  | [] => s
  | (net, i) :: rest => session str rest (snd (app net str i s))
  end.

(** The names listed in [available_modes], in order. *)
Definition mode_names (items : list pyvalue) : list pyvalue :=
  flat_map (fun mode =>
              match py_getitem mode "name" with
              | Ok k => [k]
              | Raise _ => []
              end) items.

(** [x] occurs in [l]: some element is the same object as [x] or equal to
    it. *)
Definition among (x : pyvalue) (l : list pyvalue) : bool :=
  existsb (fun y => py_same y x) l.

(** A fragment that leaves the transcript as it is, whether it returns or
    raises. *)
Definition keeps {A} (m : M A) : Prop :=
  forall s ms, messages s = Some ms -> messages (snd (m s)) = Some ms.

(** A fragment whose additions to the transcript satisfy [P]. *)
Definition adds {A} (P : list message -> Prop) (m : M A) : Prop :=
  forall s ms,
    messages s = Some ms ->
    exists added, messages (snd (m s)) = Some (ms ++ added) /\ P added.

(** What one submitted prompt adds: the user entry, then at most one
    assistant entry. *)
Definition turn (prompt : string) (added : list message) : Prop :=
  exists rest,
    added = user_entry prompt :: rest
    /\ (rest = [] \/ exists c, rest = [assistant_entry c]).

(** What one run adds: nothing, or the turn of the prompt submitted. *)
Definition run_adds (i : ui_input) (added : list message) : Prop :=
  added = []
  \/ exists prompt,
      chat_input i = Some prompt /\ prompt <> "" /\ turn prompt added.

(** A transcript made of user entries, each followed by at most one
    assistant entry. *)
Inductive dialogue : list message -> Prop :=
| dialogue_nil : dialogue []
| dialogue_user prompt rest :
    dialogue rest -> dialogue (user_entry prompt :: rest)
| dialogue_turn prompt c rest :
    dialogue rest ->
    dialogue (user_entry prompt :: assistant_entry c :: rest).

(** The line the upload report writes for one per-file result:
    [st.text(f"{status_icon} {file_result['file']}")]. *)
Definition report_line (str : pyvalue -> string) (file_result : pyvalue)
    : result ui_event :=
  icon <~ status_icon file_result ;;
  f <~ py_getitem file_result "file" ;;
  Ok (UiElement "text" (PStr (icon ++ " " ++ format_value str f)%string)).

Definition emit_all (evs : list ui_event) (s : state) : state :=
  {| net_log := net_log s;
     ui_log := ui_log s ++ evs;
     messages := messages s |}.

Definition is_dict (v : pyvalue) : bool :=
  match v with
  | PDict _ => true
  | _ => false
  end.

(** The script below the status check, for a given readiness flag. *)
Definition page (net : request -> result Response) (str : pyvalue -> string)
    (i : ui_input) (api_ready : bool) : M unit :=
  st_emit (UiElement "header" (PStr "Upload PDFs")) ;;;
  (if button_clicked i then process_pdfs net str (uploaded_files i) else ret tt) ;;;
  st_emit (UiElement "divider" PNone) ;;;
  selected_mode <- select_mode net str (selectbox_choice i) ;;
  st_emit (UiElement "divider" PNone) ;;;
  show_status api_ready ;;;
  display_chat ;;;
  (match chat_input i with
   | Some (String c p) =>
       chat_input_handler net str api_ready selected_mode (String c p)
   | _ => ret tt
   end) ;;;
  st_emit (UiElement "markdown" (PStr "---")) ;;;
  st_emit (UiElement "caption"
             (PStr "Upload A LOT of PDF's cause u can't read on your own!")).

(** The place of a request in a run: status check, upload, modes, query. *)
Definition stage (r : request) : nat :=
  match r with
  | Get url => if String.eqb url (API_URL ++ "/status/")%string then 0 else 2
  | PostFiles _ _ => 1
  | PostJson _ _ => 3
  end.

(** Requests in the order of their stages, none twice, between two stages. *)
Definition in_stages (lo hi : nat) (l : list request) : Prop :=
  StronglySorted lt (map stage l)
  /\ Forall (fun r => lo <= stage r < hi) l.

(** A fragment that sends no request. *)
Definition silent {A} (m : M A) : Prop :=
  forall s, net_log (snd (m s)) = net_log s.

(** A fragment whose requests are in order between two stages. *)
Definition sends (lo hi : nat) {A} (m : M A) : Prop :=
  forall s,
    exists added,
      net_log (snd (m s)) = net_log s ++ added /\ in_stages lo hi added.

(** *** Sample worlds *)

(** The service answers every request with status 200 and body [v]. *)
Definition net_body (v : pyvalue) : request -> result Response :=
  fun _ => Ok {| raise_for_status := Ok tt; json := Ok v |}.

(** No request gets through. *)
Definition net_down (msg : string) : request -> result Response :=
  fun _ => Raise (RequestException msg).

(** The service answers with an HTTP error status. *)
Definition net_http_error (msg : string) : request -> result Response :=
  fun _ => Ok {| raise_for_status := Raise (RequestException msg);
                 json := Ok PNone |}.

(** An instance of [str] for the samples (exact on [None] and booleans). *)
Definition sample_str (v : pyvalue) : string :=
  match v with
  | PNone => "None"
  | PBool true => "True"
  | PBool false => "False"
  | _ => "?"
  end.

(** A session before the first run, and one whose transcript holds [ms]. *)
Definition new_session : state :=
  {| net_log := []; ui_log := []; messages := None |}.

Definition session_with (ms : list message) : state :=
  {| net_log := []; ui_log := []; messages := Some ms |}.

Definition sample_file : file :=
  {| name := "a.pdf"; getvalue := [] |}.

(** A service that is ready, has no modes endpoint, reports on uploads per
    file and answers every query with "42". *)
Definition sample_service (r : request) : result Response :=
  match r with
  | Get url =>
      if String.eqb url (API_URL ++ "/status/")%string
      then Ok {| raise_for_status := Ok tt;
                 json := Ok (PDict [("status", PStr "ready")]) |}
      else Ok {| raise_for_status := Raise (RequestException "404 Not Found");
                 json := Raise (OtherException "not JSON") |}
  | PostJson _ _ =>
      Ok {| raise_for_status := Ok tt;
            json := Ok (PDict [("response", PStr "42")]) |}
  | PostFiles _ files =>
      Ok {| raise_for_status := Ok tt;
            json :=
              Ok (PDict
                    [("status", PStr "success");
                     ("message", PStr "done");
                     ("details",
                      PDict
                        [("results",
                          PList
                            (map (fun f =>
                                    PDict [("file", PStr (fst (fst (snd f))));
                                           ("status", PStr "success")])
                                 files))])]) |}
  end.

Definition sample_input : ui_input :=
  {| uploaded_files := [sample_file];
     button_clicked := true;
     selectbox_choice := None;
     chat_input := Some "hi" |}.

(** A service that is ready and answers the modes endpoint with a JSON
    array. *)
Definition net_modes_list (r : request) : result Response :=
  match r with
  | Get url =>
      if String.eqb url (API_URL ++ "/status/")%string
      then Ok {| raise_for_status := Ok tt;
                 json := Ok (PDict [("status", PStr "ready")]) |}
      else Ok {| raise_for_status := Ok tt; json := Ok (PList []) |}
  | _ => Ok {| raise_for_status := Ok tt;
               json := Ok (PDict [("response", PStr "42")]) |}
  end.

(** * Properties *)

(** ** The model at work *)

(** [{1: "a"}] updated at [True] and at [1.0] keeps the key [1]; ["1"] is
    another key. *)
Example odict_set_numeric_keys :
  odict_set (PFloat (FDyadic 2 1)) (PStr "c")
    (odict_set (PStr "1") (PStr "s")
       (odict_set (PBool true) (PStr "b")
          (odict_set (PInt 1) (PStr "a") [])))
  = [(PInt 1, PStr "c"); (PStr "1", PStr "s")].
Proof. reflexivity. Qed.

Example py_contains_samples :
  py_contains "response" (PDict [("response", PNone)]) = Ok true
  /\ py_contains "response" (PList [PStr "response"]) = Ok true
  /\ py_contains "response" (PStr "no response yet") = Ok true
  /\ py_contains "response" (PList []) = Ok false
  /\ py_contains "response" (PInt 5) = Raise TypeError.
Proof. repeat split. Qed.

(** A first run with one file to process and the prompt "hi": three
    requests, the upload report, the fallback modes, and a transcript of two
    entries. *)
Example app_sample_run :
  app sample_service sample_str sample_input new_session
  = (Ok tt,
     {| net_log :=
          [Get "https://sweeping-moth-probably.ngrok-free.app//status/";
           PostFiles "https://sweeping-moth-probably.ngrok-free.app//upload_pdfs/"
             [("files", ("a.pdf", [], "application/pdf"))];
           Get "https://sweeping-moth-probably.ngrok-free.app//modes/";
           PostJson "https://sweeping-moth-probably.ngrok-free.app//query/"
             (PDict [("query", PStr "hi"); ("mode", PStr "hybrid")])];
        ui_log :=
          [UiElement "title" (PStr "LightRAG - BulkChat");
           UiElement "header" (PStr "Upload PDFs");
           UiSpinner "Processing PDFs...";
           UiElement "success" (PStr "done");
           UiElement "text" (PStr "✅ a.pdf");
           UiElement "divider" PNone;
           UiElement "header" (PStr "Settings");
           UiSelectbox "Search Mode"
             ["hybrid - Combines local and global approaches";
              "local - Uses local context for retrieving relevant information";
              "global - Uses global context for broader information retrieval";
              "naive - Simple text matching without context awareness";
              "mix - Mix of different search strategies"] 0;
           UiElement "divider" PNone;
           UiElement "subheader" (PStr "System Status");
           UiElement "markdown"
             (PStr "API: <span style='color:green;'>Ready</span>");
           UiElement "subheader" (PStr "Chat");
           UiChatMessage "user";
           UiElement "write" (PStr "hi");
           UiChatMessage "assistant";
           UiSpinner "Thinking...";
           UiElement "write" (PStr "42");
           UiElement "markdown" (PStr "---");
           UiElement "caption"
             (PStr "Upload A LOT of PDF's cause u can't read on your own!")];
        messages :=
          Some [{| role := "user"; content := PStr "hi" |};
                {| role := "assistant"; content := PStr "42" |}] |}).
Proof. reflexivity. Qed.

(** ** Running the helpers *)

Lemma fetch_json_run net r s :
  fetch_json net r s = (fetch_result net r, log_request r s).
Proof.
  unfold fetch_json, fetch_result, bind, send, lift, rbind, log_request.
  destruct (sendable r); [|reflexivity].
  destruct (net r) as [resp|e]; [|reflexivity].
  destruct (raise_for_status resp); reflexivity.
Qed.

Lemma upload_pdfs_run net f files s :
  upload_pdfs net (f :: files) s =
  (caught (fetch_result net (upload_request (f :: files))), log_request (upload_request (f :: files)) s).
Proof.
  unfold upload_pdfs, try_except.
  fold (upload_request (f :: files)).
  rewrite fetch_json_run.
  destruct (fetch_result net _) as [v|[]]; reflexivity.
Qed.

Lemma query_rag_run net q mode s :
  query_rag net q mode s =
  (caught (fetch_result net (query_request q mode)), log_request (query_request q mode) s).
Proof.
  unfold query_rag, try_except.
  fold (query_request q mode).
  rewrite fetch_json_run.
  destruct (fetch_result net _) as [v|[]]; reflexivity.
Qed.

Lemma check_api_status_run net s :
  check_api_status net s =
  (match fetch_result net status_request with
   | Raise _ => Ok (error_result "API is not available")
   | r => r
   end, log_request status_request s).
Proof.
  unfold check_api_status, try_except.
  fold status_request.
  rewrite fetch_json_run.
  destruct (fetch_result net _); reflexivity.
Qed.

Lemma get_available_modes_run net s :
  get_available_modes net s =
  (match fetch_result net modes_request with
   | Raise _ => Ok default_modes
   | r => r
   end, log_request modes_request s).
Proof.
  unfold get_available_modes, try_except.
  fold modes_request.
  rewrite fetch_json_run.
  destruct (fetch_result net _); reflexivity.
Qed.

(** ** Error handling of the helpers *)

(** C6: with no file selected, [upload_pdfs] returns the error result
    ["No files selected"] and leaves the state, hence the log of requests,
    as it was: no request is sent. *)
Theorem upload_pdfs_no_files :
  forall net s,
    upload_pdfs net [] s =
      (Ok (PDict [("status", PStr "error");
                  ("message", PStr "No files selected")]), s)
    /\ is_error_result
         (PDict [("status", PStr "error");
                 ("message", PStr "No files selected")]) = true
    /\ net_log (snd (upload_pdfs net [] s)) = net_log s.
Proof.
  intros net s. repeat split.
Qed.

(** C1 (as stated) fails: a body that decodes is returned as it is.  A
    remote-reported error keeps the status the service chose, a JSON array
    stays an array, and the chat handler then raises on it. *)
Lemma helpers_return_body_verbatim :
  fst (query_rag
         (net_body (PDict [("status", PStr "failed"); ("message", PStr "no index")]))
         "hi" (PStr "hybrid") (session_with []))
    = Ok (PDict [("status", PStr "failed"); ("message", PStr "no index")])
  /\ is_error_result
       (PDict [("status", PStr "failed"); ("message", PStr "no index")]) = false
  /\ fst (upload_pdfs (net_body (PList [])) [sample_file] (session_with []))
    = Ok (PList [])
  /\ is_error_result (PList []) = false
  /\ fst (process_pdfs (net_body (PList [])) sample_str [sample_file]
            (session_with []))
    = Raise AttributeError
  /\ fst (chat_input_handler (net_body (PList [])) sample_str true
            (PStr "hybrid") "hi" (session_with []))
    = Raise AttributeError.
Proof.
  repeat split.
Qed.

(** C1 (amended): a [RequestException] raised by the call (no connection,
    HTTP error status) is caught and becomes
    [{"status": "error", "message": "API error: <text>"}]; a body that
    decodes is returned unchanged. *)
Theorem helpers_catch_request_exceptions :
  forall net s q mode f files,
    (forall msg,
        fetch_result net (query_request q mode) = Raise (RequestException msg) ->
        fst (query_rag net q mode s)
          = Ok (error_result ("API error: " ++ msg)%string)
        /\ is_error_result (error_result ("API error: " ++ msg)%string) = true)
    /\ (forall v,
        fetch_result net (query_request q mode) = Ok v ->
        fst (query_rag net q mode s) = Ok v)
    /\ (forall msg,
        fetch_result net (upload_request (f :: files))
          = Raise (RequestException msg) ->
        fst (upload_pdfs net (f :: files) s)
          = Ok (error_result ("API error: " ++ msg)%string))
    /\ (forall v,
        fetch_result net (upload_request (f :: files)) = Ok v ->
        fst (upload_pdfs net (f :: files) s) = Ok v).
Proof.
  intros net s q mode f files.
  rewrite query_rag_run, upload_pdfs_run. cbn [fst].
  split; [|split; [|split]]; intros x Hx; rewrite Hx; auto.
Qed.

Lemma helpers_catch_request_exceptions_witness :
  fst (query_rag (net_down "refused") "hi" (PStr "hybrid") (session_with []))
    = Ok (error_result "API error: refused")
  /\ fst (query_rag (net_body (PDict [("response", PStr "42")])) "hi"
            (PStr "hybrid") (session_with []))
    = Ok (PDict [("response", PStr "42")])
  /\ fst (upload_pdfs (net_http_error "500 Server Error") [sample_file]
            (session_with []))
    = Ok (error_result "API error: 500 Server Error")
  /\ fst (upload_pdfs (net_body (PDict [("status", PStr "success")]))
            [sample_file] (session_with []))
    = Ok (PDict [("status", PStr "success")]).
Proof.
  split; [|split; [|split]].
  - destruct (helpers_catch_request_exceptions (net_down "refused")
                (session_with []) "hi" (PStr "hybrid") sample_file [])
      as (H & _).
    apply (H "refused"). reflexivity.
  - destruct (helpers_catch_request_exceptions
                (net_body (PDict [("response", PStr "42")]))
                (session_with []) "hi" (PStr "hybrid") sample_file [])
      as (_ & H & _).
    apply H. reflexivity.
  - destruct (helpers_catch_request_exceptions
                (net_http_error "500 Server Error")
                (session_with []) "hi" (PStr "hybrid") sample_file [])
      as (_ & _ & H & _).
    apply H. reflexivity.
  - destruct (helpers_catch_request_exceptions
                (net_body (PDict [("status", PStr "success")]))
                (session_with []) "hi" (PStr "hybrid") sample_file [])
      as (_ & _ & _ & H).
    apply H. reflexivity.
Defined.

(** C2: when the call to the modes endpoint fails, at whatever stage and
    with whatever exception, [get_available_modes] returns the built-in
    result: hybrid, local, global, naive, mix in that order, each with its
    description, and the default mode "hybrid". *)
Theorem get_available_modes_fallback :
  forall net s e,
    fetch_result net modes_request = Raise e ->
    fst (get_available_modes net s) =
      Ok (PDict
            [("available_modes",
              PList
                [PDict [("name", PStr "hybrid");
                        ("description", PStr "Combines local and global approaches")];
                 PDict [("name", PStr "local");
                        ("description",
                         PStr "Uses local context for retrieving relevant information")];
                 PDict [("name", PStr "global");
                        ("description",
                         PStr "Uses global context for broader information retrieval")];
                 PDict [("name", PStr "naive");
                        ("description",
                         PStr "Simple text matching without context awareness")];
                 PDict [("name", PStr "mix");
                        ("description", PStr "Mix of different search strategies")]]);
             ("default_mode", PStr "hybrid")]).
Proof.
  intros net s e H.
  rewrite get_available_modes_run, H. reflexivity.
Qed.

Lemma get_available_modes_fallback_witness :
  fst (get_available_modes (net_down "timed out") new_session) = Ok default_modes
  /\ fst (get_available_modes (net_http_error "404 Not Found") new_session)
     = Ok default_modes
  /\ fst (get_available_modes
            (fun _ => Ok {| raise_for_status := Ok tt;
                            json := Raise (OtherException "not JSON") |})
            new_session)
     = Ok default_modes.
Proof.
  split; [|split].
  - apply (get_available_modes_fallback (net_down "timed out") new_session
             (RequestException "timed out")).
    reflexivity.
  - apply (get_available_modes_fallback (net_http_error "404 Not Found")
             new_session (RequestException "404 Not Found")).
    reflexivity.
  - apply (get_available_modes_fallback _ new_session
             (OtherException "not JSON")).
    reflexivity.
Defined.

(** ** The upload report *)

(** C8: the icon of a per-file result is a function of its status field:
    the success marker when the status is the string "success", the failure
    marker for every other value; two results with the same status get the
    same icon. *)
Theorem status_icon_of_status :
  forall file_result status,
    py_getitem file_result "status" = Ok status ->
    (status = PStr "success" -> status_icon file_result = Ok "✅")
    /\ (status <> PStr "success" -> status_icon file_result = Ok "❌")
    /\ (forall other,
           py_getitem other "status" = Ok status ->
           status_icon other = status_icon file_result).
Proof.
  intros file_result status H.
  unfold status_icon. rewrite H. cbn [rbind].
  split; [|split].
  - intros ->. reflexivity.
  - intros Hne.
    destruct status as [| | | |t| |]; try reflexivity.
    cbn [py_eq_str].
    destruct (String.eqb_spec t "success") as [->|]; [congruence|reflexivity].
  - intros other Ho. rewrite Ho. reflexivity.
Qed.

Lemma status_icon_of_status_witness :
  status_icon
    (PDict [("file", PStr "a.pdf"); ("status", PStr "success")]) = Ok "✅"
  /\ status_icon
       (PDict [("file", PStr "b.pdf"); ("status", PStr "error")]) = Ok "❌".
Proof.
  split.
  - destruct (status_icon_of_status
                (PDict [("file", PStr "a.pdf"); ("status", PStr "success")])
                (PStr "success") eq_refl) as (H & _).
    apply H. reflexivity.
  - destruct (status_icon_of_status
                (PDict [("file", PStr "b.pdf"); ("status", PStr "error")])
                (PStr "error") eq_refl) as (_ & H & _).
    apply H. discriminate.
Defined.

(** ** The chat input handler *)

Lemma chat_input_handler_not_ready_run net str mode prompt s ms :
  messages s = Some ms ->
  exists s',
    chat_input_handler net str false mode prompt s = (Ok tt, s')
    /\ messages s'
       = Some (ms ++ [user_entry prompt; assistant_entry (PStr not_ready_warning)])
    /\ net_log s' = net_log s.
Proof.
  intros Hms.
  unfold chat_input_handler, bind, messages_append, st_emit.
  cbn. rewrite Hms. cbn.
  eexists. split; [reflexivity|].
  cbn. rewrite <- app_assoc. auto.
Qed.

Lemma chat_input_handler_user_first net str ready mode prompt s ms :
  messages s = Some ms ->
  exists s1,
    messages s1 = Some (ms ++ [user_entry prompt])
    /\ net_log s1 = net_log s
    /\ chat_input_handler net str ready mode prompt s =
       (if ready then
          response <- query_rag net prompt mode ;;
          has_response <- lift (py_contains "response" response) ;;
          if has_response then
            result <- lift (py_getitem response "response") ;;
            st_emit (UiElement "write" result) ;;;
            messages_append (assistant_entry result)
          else
            error_msg <- lift (py_get response "message"
                                 (PStr "Unknown error occurred")) ;;
            st_emit (UiElement "error"
                       (PStr ("Error: " ++ format_value str error_msg)%string)) ;;;
            messages_append
              (assistant_entry
                 (PStr ("Error: " ++ format_value str error_msg)%string))
        else
          st_emit (UiElement "warning" (PStr not_ready_warning)) ;;;
          messages_append (assistant_entry (PStr not_ready_warning))) s1.
Proof.
  intros Hms.
  unfold chat_input_handler.
  unfold bind at 1, messages_append at 1. rewrite Hms.
  do 4 (unfold bind at 1, st_emit at 1; cbn [net_log ui_log messages]).
  eexists. split; [|split]; [| |reflexivity]; reflexivity.
Qed.

Lemma chat_input_handler_ready_run net str mode prompt s ms d :
  messages s = Some ms ->
  caught (fetch_result net (query_request prompt mode)) = Ok (PDict d) ->
  exists s',
    chat_input_handler net str true mode prompt s = (Ok tt, s')
    /\ messages s' = Some (ms ++ [user_entry prompt; reply_entry str d])
    /\ net_log s' = net_log (log_request (query_request prompt mode) s).
Proof.
  intros Hms Hq.
  destruct (chat_input_handler_user_first net str true mode prompt s ms Hms)
    as (s1 & Hm1 & Hl1 & ->).
  unfold bind at 1. rewrite query_rag_run, Hq.
  unfold reply_entry, bind, lift, st_emit, messages_append. cbn.
  destruct (dict_get "response" d) as [answer|]; cbn.
  - rewrite Hm1, Hl1. eexists. split; [reflexivity|].
    cbn. rewrite <- app_assoc. auto.
  - destruct (dict_get "message" d) as [m|]; cbn;
      rewrite Hm1, Hl1; eexists; (split; [reflexivity|]);
      cbn; rewrite <- app_assoc; auto.
Qed.

Lemma py_eq_str_false v t :
  v <> PStr t -> py_eq_str v t = false.
Proof.
  intros Hne. destruct v as [| | | |u| |]; try reflexivity.
  cbn. destruct (String.eqb_spec u t) as [->|]; [congruence|reflexivity].
Qed.

(** C3: when the status call fails, or its body is an object whose status
    is not the string "ready", the script is not ready; a query submitted
    while not ready appends the user entry and one assistant entry holding
    the fixed warning, and sends no request. *)
Theorem not_ready_blocks_queries :
  forall net str s,
    (forall e,
        fetch_result net status_request = Raise e ->
        fst (fetch_api_ready net s) = Ok false)
    /\ (forall d,
        fetch_result net status_request = Ok (PDict d) ->
        dict_get "status" d <> Some (PStr "ready") ->
        fst (fetch_api_ready net s) = Ok false)
    /\ (forall mode prompt ms,
        messages s = Some ms ->
        exists s',
          chat_input_handler net str false mode prompt s = (Ok tt, s')
          /\ messages s'
             = Some (ms ++ [{| role := "user"; content := PStr prompt |};
                            {| role := "assistant";
                               content := PStr "Upload and process some PDFs broo!" |}])
          /\ net_log s' = net_log s).
Proof.
  intros net str s. split; [|split].
  - intros e He. unfold fetch_api_ready, bind.
    rewrite check_api_status_run, He. reflexivity.
  - intros d Hd Hst. unfold fetch_api_ready, bind.
    rewrite check_api_status_run, Hd.
    unfold lift, api_ready_of, py_get. cbn [fst rbind].
    destruct (dict_get "status" d) as [v|]; cbn [rbind]; [|reflexivity].
    rewrite py_eq_str_false; [reflexivity|congruence].
  - intros mode prompt ms Hms.
    apply chat_input_handler_not_ready_run. exact Hms.
Qed.

Lemma not_ready_blocks_queries_witness :
  fst (fetch_api_ready (net_down "refused") new_session) = Ok false
  /\ fst (fetch_api_ready (net_body (PDict [("status", PStr "empty")]))
            new_session) = Ok false
  /\ exists s',
      chat_input_handler (net_down "refused") sample_str false (PStr "hybrid")
        "hi" (session_with []) = (Ok tt, s')
      /\ messages s'
         = Some ([] ++ [{| role := "user"; content := PStr "hi" |};
                        {| role := "assistant";
                           content := PStr "Upload and process some PDFs broo!" |}])
      /\ net_log s' = net_log (session_with []).
Proof.
  split; [|split].
  - destruct (not_ready_blocks_queries (net_down "refused") sample_str
                new_session) as (H & _).
    apply (H (RequestException "refused")). reflexivity.
  - destruct (not_ready_blocks_queries
                (net_body (PDict [("status", PStr "empty")])) sample_str
                new_session) as (_ & H & _).
    apply (H [("status", PStr "empty")]); [reflexivity|discriminate].
  - destruct (not_ready_blocks_queries (net_down "refused") sample_str
                (session_with [])) as (_ & _ & H).
    apply (H (PStr "hybrid") "hi" []). reflexivity.
Defined.

(** C4: when the system is ready and the body of the query response is an
    object with a "response" field, the handler appends the user entry and
    then one assistant entry whose content is the value of that field. *)
Theorem query_response_appended :
  forall net str mode prompt s ms d answer,
    messages s = Some ms ->
    fetch_result net (query_request prompt mode) = Ok (PDict d) ->
    dict_get "response" d = Some answer ->
    exists s',
      chat_input_handler net str true mode prompt s = (Ok tt, s')
      /\ messages s'
         = Some (ms ++ [{| role := "user"; content := PStr prompt |};
                        {| role := "assistant"; content := answer |}]).
Proof.
  intros net str mode prompt s ms d answer Hms Hq Hr.
  destruct (chat_input_handler_ready_run net str mode prompt s ms d Hms)
    as (s' & Hrun & Hm & _).
  - rewrite Hq. reflexivity.
  - exists s'. split; [exact Hrun|].
    rewrite Hm. unfold reply_entry. rewrite Hr. reflexivity.
Qed.

Lemma query_response_appended_witness :
  exists s',
    chat_input_handler (net_body (PDict [("response", PStr "42")])) sample_str
      true (PStr "hybrid") "hi" (session_with []) = (Ok tt, s')
    /\ messages s'
       = Some ([] ++ [{| role := "user"; content := PStr "hi" |};
                      {| role := "assistant"; content := PStr "42" |}]).
Proof.
  apply (query_response_appended (net_body (PDict [("response", PStr "42")]))
           sample_str (PStr "hybrid") "hi" (session_with []) []
           [("response", PStr "42")] (PStr "42"));
    reflexivity.
Defined.

(** C5: when the system is ready and the body of the query response is an
    object without a "response" field, the handler appends the user entry
    and then one assistant entry: "Error: " followed by the formatted
    "message" field (the field itself when it is a string), or
    "Error: Unknown error occurred" when the field is absent. *)
Theorem query_error_appended :
  forall net str mode prompt s ms d,
    messages s = Some ms ->
    fetch_result net (query_request prompt mode) = Ok (PDict d) ->
    dict_get "response" d = None ->
    exists s' text,
      chat_input_handler net str true mode prompt s = (Ok tt, s')
      /\ messages s'
         = Some (ms ++ [{| role := "user"; content := PStr prompt |};
                        {| role := "assistant"; content := PStr text |}])
      /\ (forall m, dict_get "message" d = Some (PStr m) ->
                    text = ("Error: " ++ m)%string)
      /\ (forall v, dict_get "message" d = Some v ->
                    text = ("Error: " ++ format_value str v)%string)
      /\ (dict_get "message" d = None ->
          text = "Error: Unknown error occurred").
Proof.
  intros net str mode prompt s ms d Hms Hq Hr.
  destruct (chat_input_handler_ready_run net str mode prompt s ms d Hms)
    as (s' & Hrun & Hm & _).
  - rewrite Hq. reflexivity.
  - unfold reply_entry in Hm. rewrite Hr in Hm.
    destruct (dict_get "message" d) as [v|] eqn:Hv.
    + exists s', ("Error: " ++ format_value str v)%string.
      repeat (split; [assumption|]).
      split; [|split]; intros; try congruence.
      assert (v = PStr m) as -> by congruence. reflexivity.
    + exists s', "Error: Unknown error occurred".
      repeat (split; [assumption|]).
      split; [|split]; intros; congruence.
Qed.

Lemma query_error_appended_witness :
  exists s' text,
    chat_input_handler
      (net_body (PDict [("status", PStr "error"); ("message", PStr "no index")]))
      sample_str true (PStr "hybrid") "hi" (session_with [])
    = (Ok tt, s')
    /\ messages s'
       = Some ([] ++ [{| role := "user"; content := PStr "hi" |};
                      {| role := "assistant"; content := PStr text |}])
    /\ text = "Error: no index".
Proof.
  destruct (query_error_appended
              (net_body (PDict [("status", PStr "error");
                                ("message", PStr "no index")]))
              sample_str (PStr "hybrid") "hi" (session_with []) []
              [("status", PStr "error"); ("message", PStr "no index")]
              eq_refl eq_refl eq_refl)
    as (s' & text & Hrun & Hm & Hstr & _).
  exists s', text. split; [exact Hrun|]. split; [exact Hm|].
  apply Hstr. reflexivity.
Defined.

(** C9 (as stated) fails: when the decoded body of the query response is
    not an object (here a JSON array), the handler raises after the user
    entry and no assistant entry is appended. *)
Lemma chat_input_handler_one_entry :
  exists s',
    chat_input_handler (net_body (PList [])) sample_str true (PStr "hybrid")
      "hi" (session_with []) = (Raise AttributeError, s')
    /\ messages s' = Some [{| role := "user"; content := PStr "hi" |}]
    /\ (forall ms', messages s' = Some ms' -> length ms' <> 2).
Proof.
  eexists. split; [reflexivity|]. split; [reflexivity|].
  cbn. intros ms' H. injection H as <-. discriminate.
Qed.

(** C9 (amended): every submitted query first appends the user entry with
    the prompt, and at most one assistant entry after it; when the system is
    not ready, or [query_rag] returns a dict (a decoded JSON object, or the
    error result built from a caught [RequestException]), the handler
    completes and exactly one assistant entry follows the user entry. *)
Theorem chat_input_handler_entries :
  forall net str ready mode prompt s ms,
    messages s = Some ms ->
    (exists rest,
        messages (snd (chat_input_handler net str ready mode prompt s))
          = Some (ms ++ {| role := "user"; content := PStr prompt |} :: rest)
        /\ (rest = [] \/ exists c, rest = [{| role := "assistant"; content := c |}]))
    /\ ((ready = false
         \/ exists d, caught (fetch_result net (query_request prompt mode))
                      = Ok (PDict d)) ->
        exists c,
          fst (chat_input_handler net str ready mode prompt s) = Ok tt
          /\ messages (snd (chat_input_handler net str ready mode prompt s))
             = Some (ms ++ [{| role := "user"; content := PStr prompt |};
                            {| role := "assistant"; content := c |}])).
Proof.
  intros net str ready mode prompt s ms Hms. split.
  - destruct (chat_input_handler_user_first net str ready mode prompt s ms Hms)
      as (s1 & Hm1 & _ & ->).
    assert (Hnil : messages s1 = Some (ms ++ user_entry prompt :: [])
                   /\ (@nil message = [] \/ exists c, @nil message = [assistant_entry c]))
      by (rewrite Hm1; auto).
    assert (Hone : forall c,
               Some ((ms ++ [user_entry prompt]) ++ [assistant_entry c])
               = Some (ms ++ user_entry prompt :: [assistant_entry c])
               /\ ([assistant_entry c] = [] \/
                   exists c', [assistant_entry c] = [assistant_entry c']))
      by (intros c; rewrite <- app_assoc; split; [reflexivity|right; eauto]).
    destruct ready.
    + unfold bind at 1. rewrite query_rag_run.
      destruct (caught _) as [v|e]; [|exists []; exact Hnil].
      unfold bind, lift, st_emit, messages_append.
      destruct (py_contains "response" v) as [[]|e]; cbn;
        [| |exists []; exact Hnil].
      * destruct (py_getitem v "response") as [a|e]; cbn;
          [|exists []; exact Hnil].
        rewrite Hm1. cbn. exists [assistant_entry a]. apply Hone.
      * destruct (py_get v "message" _) as [m|e]; cbn;
          [|exists []; exact Hnil].
        rewrite Hm1. cbn. eexists [assistant_entry _]. apply Hone.
    + unfold bind, st_emit, messages_append. cbn. rewrite Hm1. cbn.
      eexists [assistant_entry _]. apply Hone.
  - intros [->|[d Hd]].
    + destruct (chat_input_handler_not_ready_run net str mode prompt s ms Hms)
        as (s' & -> & Hm & _).
      eexists. split; [reflexivity|exact Hm].
    + destruct ready.
      * destruct (chat_input_handler_ready_run net str mode prompt s ms d Hms Hd)
          as (s' & -> & Hm & _).
        exists (content (reply_entry str d)). split; [reflexivity|].
        cbn [snd]. rewrite Hm. unfold reply_entry.
        destruct (dict_get "response" d); [reflexivity|].
        destruct (dict_get "message" d); reflexivity.
      * destruct (chat_input_handler_not_ready_run net str mode prompt s ms Hms)
          as (s' & -> & Hm & _).
        eexists. split; [reflexivity|exact Hm].
Qed.

Lemma chat_input_handler_entries_witness :
  exists c,
    fst (chat_input_handler (net_down "refused") sample_str true (PStr "hybrid")
           "hi" (session_with [])) = Ok tt
    /\ messages (snd (chat_input_handler (net_down "refused") sample_str true
                        (PStr "hybrid") "hi" (session_with [])))
       = Some ([] ++ [{| role := "user"; content := PStr "hi" |};
                      {| role := "assistant"; content := c |}])
    /\ c = PStr "Error: API error: refused".
Proof.
  destruct (chat_input_handler_entries (net_down "refused") sample_str true
              (PStr "hybrid") "hi" (session_with []) [] eq_refl)
    as (_ & H).
  destruct H as (c & Hok & Hm).
  - right. exists [("status", PStr "error");
                   ("message", PStr "API error: refused")].
    reflexivity.
  - exists c. split; [exact Hok|]. split; [exact Hm|].
    cbn in Hm. congruence.
Defined.

(** ** The transcript *)

Lemma grows_ret {A} (a : A) : grows (ret a).
Proof. intros s ms H. exists []. cbn. rewrite app_nil_r. exact H. Qed.

Lemma grows_raise {A} e : grows (@raise A e).
Proof. intros s ms H. exists []. cbn. rewrite app_nil_r. exact H. Qed.

Lemma grows_lift {A} (r : result A) : grows (lift r).
Proof. intros s ms H. exists []. cbn. rewrite app_nil_r. exact H. Qed.

Lemma grows_st_emit e : grows (st_emit e).
Proof. intros s ms H. exists []. cbn. rewrite app_nil_r. exact H. Qed.

Lemma grows_send net r : grows (send net r).
Proof. intros s ms H. exists []. cbn. rewrite app_nil_r. exact H. Qed.

Lemma grows_messages_append m : grows (messages_append m).
Proof.
  intros s ms H. exists [m]. unfold messages_append. rewrite H. reflexivity.
Qed.

Lemma grows_init_session : grows init_session.
Proof.
  intros s ms H. exists []. unfold init_session. rewrite H. cbn.
  rewrite app_nil_r. exact H.
Qed.

Lemma grows_bind {A B} (m : M A) (k : A -> M B) :
  grows m -> (forall a, grows (k a)) -> grows (bind m k).
Proof.
  intros Hm Hk s ms H. unfold bind.
  destruct (Hm s ms H) as (a1 & H1).
  destruct (m s) as [[a|e] s1]; cbn [snd] in *.
  - destruct (Hk a s1 _ H1) as (a2 & H2).
    exists (a1 ++ a2). rewrite app_assoc. exact H2.
  - exists a1. exact H1.
Qed.

Lemma grows_try_except {A} (body : M A) handler :
  grows body ->
  (forall e h, handler e = Some h -> grows h) ->
  grows (try_except body handler).
Proof.
  intros Hb Hh s ms H. unfold try_except.
  destruct (Hb s ms H) as (a1 & H1).
  destruct (body s) as [[a|e] s1]; cbn [snd] in *.
  - exists a1. exact H1.
  - destruct (handler e) as [h|] eqn:He.
    + destruct (Hh e h He s1 _ H1) as (a2 & H2).
      exists (a1 ++ a2). rewrite app_assoc. exact H2.
    + exists a1. exact H1.
Qed.

Lemma grows_except_RequestException {A} (h : string -> M A) :
  (forall msg, grows (h msg)) ->
  forall e k, except_RequestException h e = Some k -> grows k.
Proof.
  intros Hh e k. destruct e; cbn; try discriminate.
  intros [= <-]. apply Hh.
Qed.

Lemma grows_except_all {A} (h : M A) :
  grows h -> forall e k, except_all h e = Some k -> grows k.
Proof. intros Hh e k [= <-]. exact Hh. Qed.

Create HintDb grows.
#[local] Hint Resolve grows_ret grows_raise grows_lift grows_st_emit grows_send
  grows_messages_append grows_init_session : grows.

(** Peels a fragment apart along its binds, branches and handlers. *)
Ltac grows_step :=
  match goal with
  | |- grows (bind _ _) => apply grows_bind; [|intro]
  | |- grows (try_except _ (except_RequestException _)) =>
      apply grows_try_except;
      [|apply grows_except_RequestException; intro]
  | |- grows (try_except _ (except_all _)) =>
      apply grows_try_except; [|apply grows_except_all]
  | |- grows (if ?b then _ else _) => destruct b
  | |- grows (match ?x with _ => _ end) => destruct x
  | |- grows _ => solve [auto with grows]
  end.

Lemma grows_fetch_json net r : grows (fetch_json net r).
Proof. unfold fetch_json. repeat grows_step. Qed.

Lemma grows_upload_pdfs net files : grows (upload_pdfs net files).
Proof.
  unfold upload_pdfs. destruct files; repeat grows_step.
  apply grows_fetch_json.
Qed.

Lemma grows_query_rag net q mode : grows (query_rag net q mode).
Proof. unfold query_rag. repeat grows_step. apply grows_fetch_json. Qed.

Lemma grows_check_api_status net : grows (check_api_status net).
Proof. unfold check_api_status. repeat grows_step. apply grows_fetch_json. Qed.

Lemma grows_get_available_modes net : grows (get_available_modes net).
Proof. unfold get_available_modes. repeat grows_step. apply grows_fetch_json. Qed.

#[local] Hint Resolve grows_upload_pdfs grows_query_rag grows_check_api_status
  grows_get_available_modes : grows.

Lemma grows_show_file_results str results : grows (show_file_results str results).
Proof.
  induction results as [|r rest IH]; cbn [show_file_results];
    repeat grows_step.
Qed.

Lemma grows_process_pdfs net str files : grows (process_pdfs net str files).
Proof.
  unfold process_pdfs. repeat grows_step. apply grows_show_file_results.
Qed.

Lemma grows_select_mode net str choice : grows (select_mode net str choice).
Proof. unfold select_mode. repeat grows_step. Qed.

Lemma grows_show_status ready : grows (show_status ready).
Proof. unfold show_status. repeat grows_step. Qed.

Lemma show_messages_run ms s :
  show_messages ms s =
    (Ok tt, {| net_log := net_log s;
               ui_log := ui_log s ++ flat_map entry_view ms;
               messages := messages s |}).
Proof.
  revert s. induction ms as [|m rest IH]; intros s; cbn [show_messages flat_map].
  - unfold ret. rewrite app_nil_r. destruct s; reflexivity.
  - unfold bind, st_emit. rewrite IH. cbn.
    rewrite <- !app_assoc. reflexivity.
Qed.

Lemma display_chat_run s ms :
  messages s = Some ms ->
  display_chat s =
    (Ok tt, {| net_log := net_log s;
               ui_log := ui_log s ++ UiElement "subheader" (PStr "Chat")
                                  :: flat_map entry_view ms;
               messages := Some ms |}).
Proof.
  intros H. unfold display_chat, bind, st_emit. cbn. rewrite H.
  rewrite show_messages_run. cbn. rewrite <- app_assoc. reflexivity.
Qed.

Lemma grows_display_chat : grows display_chat.
Proof.
  intros s ms H. rewrite (display_chat_run s ms H). exists []. cbn.
  rewrite app_nil_r. reflexivity.
Qed.

Lemma grows_chat_input_handler net str ready mode prompt :
  grows (chat_input_handler net str ready mode prompt).
Proof. unfold chat_input_handler. repeat grows_step. Qed.

Lemma grows_fetch_api_ready net : grows (fetch_api_ready net).
Proof. unfold fetch_api_ready. repeat grows_step. Qed.

Lemma grows_app net str i : grows (app net str i).
Proof.
  unfold app.
  repeat first
    [ apply grows_process_pdfs | apply grows_select_mode
    | apply grows_show_status | apply grows_display_chat
    | apply grows_chat_input_handler | apply grows_fetch_api_ready
    | grows_step ].
Qed.

Lemma app_first_run net str i s :
  messages s = None ->
  exists added, messages (snd (app net str i s)) = Some added.
Proof.
  intros H. unfold app.
  unfold bind at 1, st_emit at 1.
  unfold bind at 1, init_session at 1. cbn [messages]. rewrite H.
  match goal with
  | |- context [snd (?m ?s0)] =>
      assert (Hg : grows m);
      [|destruct (Hg s0 [] eq_refl) as (added & Ha); exists added; exact Ha]
  end.
  repeat first
    [ apply grows_process_pdfs | apply grows_select_mode
    | apply grows_show_status | apply grows_display_chat
    | apply grows_chat_input_handler | apply grows_fetch_api_ready
    | grows_step ].
Qed.

Lemma session_grows str runs s ms :
  messages s = Some ms ->
  exists added, messages (session str runs s) = Some (ms ++ added).
Proof.
  revert s ms. induction runs as [|[net i] rest IH]; intros s ms H; cbn [session].
  - exists []. rewrite app_nil_r. exact H.
  - destruct (grows_app net str i s ms H) as (a1 & H1).
    destruct (IH _ _ H1) as (a2 & H2).
    exists (a1 ++ a2). rewrite app_assoc. exact H2.
Qed.

(** C7: a new session gets an empty transcript; a run of the script, and
    so any sequence of runs, leaves the entries already present in place
    and in order and only adds entries after them, also when the run
    raises; the display writes the entries in the order of the
    transcript, first to last. *)
Theorem transcript_append_only :
  forall net str i runs s,
    (messages s = None -> messages (snd (init_session s)) = Some [])
    /\ (messages s = None ->
        exists added, messages (snd (app net str i s)) = Some added)
    /\ (forall ms,
        messages s = Some ms ->
        messages (snd (init_session s)) = Some ms
        /\ (exists added,
               messages (snd (app net str i s)) = Some (ms ++ added))
        /\ (exists added,
               messages (session str runs s) = Some (ms ++ added))
        /\ display_chat s =
             (Ok tt,
              {| net_log := net_log s;
                 ui_log :=
                   ui_log s ++
                   UiElement "subheader" (PStr "Chat")
                   :: flat_map
                        (fun m => [UiChatMessage (role m);
                                   UiElement "write" (content m)]) ms;
                 messages := Some ms |})).
Proof.
  intros net str i runs s. split; [|split].
  - intros H. unfold init_session. rewrite H. reflexivity.
  - apply app_first_run.
  - intros ms H. split; [|split; [|split]].
    + unfold init_session. rewrite H. exact H.
    + apply grows_app. exact H.
    + apply session_grows. exact H.
    + apply display_chat_run. exact H.
Qed.

Lemma transcript_append_only_witness :
  messages (snd (init_session new_session)) = Some []
  /\ exists added,
      messages
        (session sample_str
           [(net_body (PDict [("response", PStr "42")]),
             {| uploaded_files := []; button_clicked := false;
                selectbox_choice := None; chat_input := Some "again" |})]
           (session_with [user_entry "hi"; assistant_entry (PStr "hello")]))
      = Some ([user_entry "hi"; assistant_entry (PStr "hello")] ++ added).
Proof.
  split.
  - destruct (transcript_append_only (net_down "refused") sample_str
                {| uploaded_files := []; button_clicked := false;
                   selectbox_choice := None; chat_input := None |}
                [] new_session) as (H & _).
    apply H. reflexivity.
  - destruct (transcript_append_only (net_down "refused") sample_str
                {| uploaded_files := []; button_clicked := false;
                   selectbox_choice := None; chat_input := None |}
                [(net_body (PDict [("response", PStr "42")]),
                  {| uploaded_files := []; button_clicked := false;
                     selectbox_choice := None; chat_input := Some "again" |})]
                (session_with [user_entry "hi"; assistant_entry (PStr "hello")]))
      as (_ & _ & H).
    destruct (H _ eq_refl) as (_ & _ & Hs & _). exact Hs.
Defined.

(** ** The mode selector *)

Lemma key_eqb_eq a b : key_eqb a b = true -> a = b.
Proof.
  destruct a, b; cbn; try discriminate; intros H.
  - reflexivity.
  - apply andb_prop in H as [Hm Hd].
    apply Z.eqb_eq in Hm. apply Nat.eqb_eq in Hd. congruence.
  - apply Bool.eqb_prop in H. congruence.
  - apply String.eqb_eq in H. congruence.
Qed.

Lemma py_same_key a b : py_same a b = true -> key_of a = key_of b.
Proof.
  unfold py_same, py_eq.
  destruct (key_of a) as [[]|], (key_of b) as [[]|];
    try discriminate; intros H; try reflexivity;
    apply key_eqb_eq in H; congruence.
Qed.

Lemma py_same_congr a b x : key_of a = key_of b -> py_same a x = py_same b x.
Proof. unfold py_same, py_eq. intros ->. reflexivity. Qed.

Lemma py_same_str_inv k n : py_same k (PStr n) = true -> k = PStr n.
Proof.
  intros H. apply py_same_key in H. cbn in H.
  destruct k as [| b | z | [m d| | |] | t | |]; cbn in H; try discriminate.
  - destruct (reduce_dyadic m d). discriminate.
  - congruence.
Qed.

Lemma among_odict_set x k v d :
  among x (odict_keys (odict_set k v d))
  = among x (odict_keys d) || py_same k x.
Proof.
  unfold among, odict_keys.
  induction d as [|[k' v'] d IH]; cbn.
  - apply orb_comm.
  - destruct (py_same k' k) eqn:Hk; cbn.
    + rewrite (py_same_congr k' k x (py_same_key _ _ Hk)).
      destruct (py_same k x); cbn; [reflexivity|].
      symmetry. apply orb_false_r.
    + rewrite IH. apply orb_assoc.
Qed.

Lemma among_mode_options_of x items : forall acc opts,
  mode_options_of items acc = Ok opts ->
  among x (odict_keys opts)
  = among x (odict_keys acc) || among x (mode_names items).
Proof.
  induction items as [|mode rest IH]; intros acc opts H;
    cbn [mode_options_of mode_names flat_map] in *.
  - injection H as <-. cbn. symmetry. apply orb_false_r.
  - destruct (py_getitem mode "name") as [k|e]; cbn [rbind] in H;
      [|discriminate].
    destruct (py_getitem mode "description") as [v|e]; cbn [rbind] in H;
      [|discriminate].
    destruct (hashable k); [|discriminate].
    rewrite (IH _ _ H), among_odict_set.
    fold (mode_names rest).
    change (among x ([k] ++ mode_names rest))
      with (py_same k x || among x (mode_names rest)).
    symmetry. apply orb_assoc.
Qed.

Lemma list_index_among x l :
  among x l = true ->
  exists i k,
    list_index x l = Ok i /\ nth_error l i = Some k /\ py_same k x = true.
Proof.
  unfold among. induction l as [|y l IH]; cbn; [discriminate|].
  destruct (py_same y x) eqn:Hy; cbn.
  - intros _. exists 0, y. auto.
  - intros H. destruct (IH H) as (i & k & -> & Hn & Hk).
    exists (S i), k. auto.
Qed.

Lemma among_str n l : among (PStr n) l = true <-> In (PStr n) l.
Proof.
  unfold among. rewrite existsb_exists. split.
  - intros (k & Hin & Hk). apply py_same_str_inv in Hk. congruence.
  - intros Hin. exists (PStr n). split; [exact Hin|].
    unfold py_same, py_eq. cbn. apply String.eqb_refl.
Qed.

Lemma default_index_run default_mode items opts :
  mode_options_of items [] = Ok opts ->
  hashable default_mode = true ->
  exists i,
    default_index default_mode opts = Ok i
    /\ (among default_mode (mode_names items) = false -> i = 0)
    /\ ((exists k, nth_error (odict_keys opts) i = Some k
                   /\ py_same k default_mode = true)
        <-> among default_mode (mode_names items) = true).
Proof.
  intros Hopts Hh.
  pose proof (among_mode_options_of default_mode items [] opts Hopts) as Hkeys.
  cbn in Hkeys.
  unfold default_index, odict_contains. rewrite Hh. cbn [rbind].
  fold (among default_mode (odict_keys opts)). rewrite Hkeys.
  destruct (among default_mode (mode_names items)) eqn:Ha.
  - destruct (list_index_among _ _ Hkeys) as (i & k & Hi & Hn & Hk).
    exists i. split; [exact Hi|]. split; [discriminate|].
    split; [reflexivity|]. intros _. exists k. auto.
  - exists 0. split; [reflexivity|]. split; [reflexivity|].
    split; [|discriminate].
    intros (k & Hn & Hk).
    destruct (odict_keys opts) as [|k0 ks]; [discriminate|].
    cbn in Hn. injection Hn as ->.
    unfold among in Hkeys. cbn in Hkeys. rewrite Hk in Hkeys. discriminate.
Qed.

(** C10 (as stated) fails: a default mode that is a JSON array is not among
    the names, and the selector does not fall back to index 0: the test
    [default_mode in mode_options] raises [TypeError]. *)
Lemma default_mode_unhashable_fails :
  among (PList [])
    (mode_names [PDict [("name", PStr "local"); ("description", PStr "near")]])
  = false
  /\ default_index (PList []) [(PStr "local", PStr "near")] = Raise TypeError
  /\ fst (select_mode
            (net_body
               (PDict
                  [("available_modes",
                    PList [PDict [("name", PStr "local");
                                  ("description", PStr "near")]]);
                   ("default_mode", PList [])]))
            sample_str None new_session)
     = Raise TypeError.
Proof.
  split; [|split]; reflexivity.
Qed.

(** C10 (amended): when the modes call succeeds with an object from which
    the option dict can be built, and the default mode is hashable (a
    string, a number, a boolean, null), the selector does not fail: its
    index is the position of the default mode when it is among the listed
    names, and 0 otherwise; the option at the index is the default mode
    (the same object or equal to it) exactly when the default mode is among
    the names.  An unhashable default mode (a JSON array or object) makes
    the selector raise [TypeError]. *)
Theorem default_mode_selection :
  forall net str s d items opts default_mode,
    fetch_result net modes_request = Ok (PDict d) ->
    py_iter (match dict_get "available_modes" d with
             | Some a => a
             | None => PList []
             end) = Ok items ->
    mode_options_of items [] = Ok opts ->
    match dict_get "default_mode" d with
    | Some m => m
    | None => PStr "hybrid"
    end = default_mode ->
    (hashable default_mode = true ->
     exists i s',
       default_index default_mode opts = Ok i
       /\ select_mode net str None s = (Ok (nth i (odict_keys opts) PNone), s')
       /\ (among default_mode (mode_names items) = false -> i = 0)
       /\ ((exists k, nth_error (odict_keys opts) i = Some k
                      /\ py_same k default_mode = true)
           <-> among default_mode (mode_names items) = true)
       /\ (forall n,
              default_mode = PStr n ->
              nth_error (odict_keys opts) i = Some (PStr n)
              <-> In (PStr n) (mode_names items)))
    /\ (hashable default_mode = false ->
        default_index default_mode opts = Raise TypeError
        /\ exists s', select_mode net str None s = (Raise TypeError, s')).
Proof.
  intros net str s d items opts default_mode Hfetch Hiter Hopts Hdef.
  assert (Hrun : forall r,
             default_index default_mode opts = r ->
             exists s',
               select_mode net str None s
               = (match r with
                  | Ok i => Ok (nth i (odict_keys opts) PNone)
                  | Raise e => Raise e
                  end, s')).
  { intros r Hr. unfold select_mode.
    unfold bind at 1, st_emit at 1.
    unfold bind at 1. rewrite get_available_modes_run, Hfetch.
    unfold bind, lift, py_get, st_emit.
    destruct (dict_get "available_modes" d) as [a|];
      rewrite Hiter, Hopts;
      (destruct (dict_get "default_mode" d) as [m|]; rewrite Hdef, Hr;
       destruct r; eexists; reflexivity). }
  split.
  - intros Hh.
    destruct (default_index_run default_mode items opts Hopts Hh)
      as (i & Hi & H0 & Hiff).
    destruct (Hrun _ Hi) as (s' & Hs').
    exists i, s'.
    split; [exact Hi|]. split; [exact Hs'|]. split; [exact H0|].
    split; [exact Hiff|].
    intros n ->. rewrite <- among_str, <- Hiff. split.
    + intros Hn. exists (PStr n). split; [exact Hn|].
      unfold py_same, py_eq. cbn. apply String.eqb_refl.
    + intros (k & Hn & Hk). apply py_same_str_inv in Hk. congruence.
  - intros Hh.
    assert (Hi : default_index default_mode opts = Raise TypeError)
      by (unfold default_index, odict_contains; rewrite Hh; reflexivity).
    split; [exact Hi|]. exact (Hrun _ Hi).
Qed.

Lemma default_mode_selection_witness :
  (exists i s',
      select_mode
        (net_body
           (PDict
              [("available_modes",
                PList [PDict [("name", PStr "local"); ("description", PStr "near")];
                       PDict [("name", PStr "global"); ("description", PStr "far")]]);
               ("default_mode", PStr "global")]))
        sample_str None new_session
      = (Ok (nth i [PStr "local"; PStr "global"] PNone), s')
      /\ i = 1)
  /\ (exists i s',
         select_mode
           (net_body
              (PDict
                 [("available_modes",
                   PList [PDict [("name", PStr "local"); ("description", PStr "near")];
                          PDict [("name", PStr "global"); ("description", PStr "far")]]);
                  ("default_mode", PStr "hybrid")]))
           sample_str None new_session
         = (Ok (nth i [PStr "local"; PStr "global"] PNone), s')
         /\ i = 0)
  /\ (exists i s',
         select_mode
           (net_body
              (PDict
                 [("available_modes",
                   PList [PDict [("name", PStr "local"); ("description", PStr "near")];
                          PDict [("name", PFloat FNaN); ("description", PStr "odd")]]);
                  ("default_mode", PFloat FNaN)]))
           sample_str None new_session
         = (Ok (nth i [PStr "local"; PFloat FNaN] PNone), s')
         /\ i = 1).
Proof.
  split; [|split].
  - destruct (default_mode_selection
                (net_body
                   (PDict
                      [("available_modes",
                        PList [PDict [("name", PStr "local"); ("description", PStr "near")];
                               PDict [("name", PStr "global"); ("description", PStr "far")]]);
                       ("default_mode", PStr "global")]))
                sample_str new_session
                [("available_modes",
                  PList [PDict [("name", PStr "local"); ("description", PStr "near")];
                         PDict [("name", PStr "global"); ("description", PStr "far")]]);
                 ("default_mode", PStr "global")]
                [PDict [("name", PStr "local"); ("description", PStr "near")];
                 PDict [("name", PStr "global"); ("description", PStr "far")]]
                [(PStr "local", PStr "near"); (PStr "global", PStr "far")]
                (PStr "global") eq_refl eq_refl eq_refl eq_refl)
      as (H & _).
    destruct (H eq_refl) as (i & s' & Hi & Hrun & _).
    exists i, s'. split; [exact Hrun|]. cbn in Hi. congruence.
  - destruct (default_mode_selection
                (net_body
                   (PDict
                      [("available_modes",
                        PList [PDict [("name", PStr "local"); ("description", PStr "near")];
                               PDict [("name", PStr "global"); ("description", PStr "far")]]);
                       ("default_mode", PStr "hybrid")]))
                sample_str new_session
                [("available_modes",
                  PList [PDict [("name", PStr "local"); ("description", PStr "near")];
                         PDict [("name", PStr "global"); ("description", PStr "far")]]);
                 ("default_mode", PStr "hybrid")]
                [PDict [("name", PStr "local"); ("description", PStr "near")];
                 PDict [("name", PStr "global"); ("description", PStr "far")]]
                [(PStr "local", PStr "near"); (PStr "global", PStr "far")]
                (PStr "hybrid") eq_refl eq_refl eq_refl eq_refl)
      as (H & _).
    destruct (H eq_refl) as (i & s' & _ & Hrun & H0 & _).
    exists i, s'. split; [exact Hrun|]. apply H0. reflexivity.
  - destruct (default_mode_selection
                (net_body
                   (PDict
                      [("available_modes",
                        PList [PDict [("name", PStr "local"); ("description", PStr "near")];
                               PDict [("name", PFloat FNaN); ("description", PStr "odd")]]);
                       ("default_mode", PFloat FNaN)]))
                sample_str new_session
                [("available_modes",
                  PList [PDict [("name", PStr "local"); ("description", PStr "near")];
                         PDict [("name", PFloat FNaN); ("description", PStr "odd")]]);
                 ("default_mode", PFloat FNaN)]
                [PDict [("name", PStr "local"); ("description", PStr "near")];
                 PDict [("name", PFloat FNaN); ("description", PStr "odd")]]
                [(PStr "local", PStr "near"); (PFloat FNaN, PStr "odd")]
                (PFloat FNaN) eq_refl eq_refl eq_refl eq_refl)
      as (H & _).
    destruct (H eq_refl) as (i & s' & Hi & Hrun & _).
    exists i, s'. split; [exact Hrun|]. cbn in Hi. congruence.
Defined.

(** * Further properties of the script *)

(** ** What a run adds to the transcript *)

Lemma keeps_ret {A} (a : A) : keeps (ret a).
Proof. intros s ms H. exact H. Qed.

Lemma keeps_lift {A} (r : result A) : keeps (lift r).
Proof. intros s ms H. exact H. Qed.

Lemma keeps_st_emit e : keeps (st_emit e).
Proof. intros s ms H. exact H. Qed.

Lemma keeps_send net r : keeps (send net r).
Proof. intros s ms H. exact H. Qed.

Lemma keeps_init_session : keeps init_session.
Proof. intros s ms H. unfold init_session. rewrite H. exact H. Qed.

Lemma keeps_bind {A B} (m : M A) (k : A -> M B) :
  keeps m -> (forall a, keeps (k a)) -> keeps (bind m k).
Proof.
  intros Hm Hk s ms H. unfold bind.
  pose proof (Hm s ms H) as H1.
  destruct (m s) as [[a|e] s1]; cbn [snd] in *.
  - apply Hk. exact H1.
  - exact H1.
Qed.

Lemma keeps_try_except {A} (body : M A) handler :
  keeps body ->
  (forall e h, handler e = Some h -> keeps h) ->
  keeps (try_except body handler).
Proof.
  intros Hb Hh s ms H. unfold try_except.
  pose proof (Hb s ms H) as H1.
  destruct (body s) as [[a|e] s1]; cbn [snd] in *; [exact H1|].
  destruct (handler e) as [h|] eqn:He; [|exact H1].
  apply (Hh e h He). exact H1.
Qed.

Lemma keeps_except_RequestException {A} (h : string -> M A) :
  (forall msg, keeps (h msg)) ->
  forall e k, except_RequestException h e = Some k -> keeps k.
Proof.
  intros Hh e k. destruct e; cbn; try discriminate.
  intros [= <-]. apply Hh.
Qed.

Lemma keeps_except_all {A} (h : M A) :
  keeps h -> forall e k, except_all h e = Some k -> keeps k.
Proof. intros Hh e k [= <-]. exact Hh. Qed.

Create HintDb keeps.
#[local] Hint Resolve keeps_ret keeps_lift keeps_st_emit keeps_send
  keeps_init_session : keeps.

Ltac keeps_step :=
  match goal with
  | |- keeps (bind _ _) => apply keeps_bind; [|intro]
  | |- keeps (try_except _ (except_RequestException _)) =>
      apply keeps_try_except;
      [|apply keeps_except_RequestException; intro]
  | |- keeps (try_except _ (except_all _)) =>
      apply keeps_try_except; [|apply keeps_except_all]
  | |- keeps (if ?b then _ else _) => destruct b
  | |- keeps (match ?x with _ => _ end) => destruct x
  | |- keeps _ => solve [auto with keeps]
  end.

Lemma keeps_fetch_json net r : keeps (fetch_json net r).
Proof. unfold fetch_json. repeat keeps_step. Qed.

#[local] Hint Resolve keeps_fetch_json : keeps.

Lemma keeps_upload_pdfs net files : keeps (upload_pdfs net files).
Proof. unfold upload_pdfs. destruct files; repeat keeps_step. Qed.

Lemma keeps_check_api_status net : keeps (check_api_status net).
Proof. unfold check_api_status. repeat keeps_step. Qed.

Lemma keeps_get_available_modes net : keeps (get_available_modes net).
Proof. unfold get_available_modes. repeat keeps_step. Qed.

#[local] Hint Resolve keeps_upload_pdfs keeps_check_api_status
  keeps_get_available_modes : keeps.

Lemma keeps_show_file_results str results : keeps (show_file_results str results).
Proof.
  induction results as [|r rest IH]; cbn [show_file_results];
    repeat keeps_step.
Qed.

#[local] Hint Resolve keeps_show_file_results : keeps.

Lemma keeps_process_pdfs net str files : keeps (process_pdfs net str files).
Proof. unfold process_pdfs. repeat keeps_step. Qed.

Lemma keeps_select_mode net str choice : keeps (select_mode net str choice).
Proof. unfold select_mode. repeat keeps_step. Qed.

Lemma keeps_show_status ready : keeps (show_status ready).
Proof. unfold show_status. repeat keeps_step. Qed.

Lemma keeps_display_chat : keeps display_chat.
Proof. intros s ms H. rewrite (display_chat_run s ms H). reflexivity. Qed.

Lemma keeps_fetch_api_ready net : keeps (fetch_api_ready net).
Proof. unfold fetch_api_ready. repeat keeps_step. Qed.

#[local] Hint Resolve keeps_process_pdfs keeps_select_mode keeps_show_status
  keeps_display_chat keeps_fetch_api_ready : keeps.

Lemma adds_of_keeps {A} (P : list message -> Prop) (m : M A) :
  P [] -> keeps m -> adds P m.
Proof.
  intros HP Hm s ms H. exists []. rewrite app_nil_r. split; [|exact HP].
  apply Hm. exact H.
Qed.

Lemma adds_bind_after {A B} P (m : M A) (k : A -> M B) :
  keeps m -> (forall a, adds P (k a)) -> P [] -> adds P (bind m k).
Proof.
  intros Hm Hk HP s ms H. unfold bind.
  pose proof (Hm s ms H) as H1.
  destruct (m s) as [[a|e] s1]; cbn [snd] in *.
  - apply Hk. exact H1.
  - exists []. rewrite app_nil_r. auto.
Qed.

Lemma adds_bind_before {A B} P (m : M A) (k : A -> M B) :
  adds P m -> (forall a, keeps (k a)) -> adds P (bind m k).
Proof.
  intros Hm Hk s ms H. unfold bind.
  destruct (Hm s ms H) as (added & H1 & HP).
  destruct (m s) as [[a|e] s1]; cbn [snd] in *; exists added; split; auto.
  apply Hk. exact H1.
Qed.

Lemma chat_input_handler_turn net str ready mode prompt :
  adds (turn prompt) (chat_input_handler net str ready mode prompt).
Proof.
  intros s ms Hms.
  destruct (chat_input_handler_user_first net str ready mode prompt s ms Hms)
    as (s1 & Hm1 & _ & ->).
  assert (Hnil : messages s1 = Some (ms ++ [user_entry prompt])
                 /\ turn prompt [user_entry prompt])
    by (split; [exact Hm1|exists []; auto]).
  assert (Hone : forall c,
             Some ((ms ++ [user_entry prompt]) ++ [assistant_entry c])
             = Some (ms ++ [user_entry prompt; assistant_entry c])
             /\ turn prompt [user_entry prompt; assistant_entry c])
    by (intros c; rewrite <- app_assoc; split;
        [reflexivity|exists [assistant_entry c]; eauto]).
  destruct ready.
  - unfold bind at 1. rewrite query_rag_run.
    destruct (caught _) as [v|e]; [|eexists; exact Hnil].
    unfold bind, lift, st_emit, messages_append.
    destruct (py_contains "response" v) as [[]|e]; cbn;
      [| |eexists; exact Hnil].
    + destruct (py_getitem v "response") as [a|e]; cbn;
        [|eexists; exact Hnil].
      rewrite Hm1. cbn. eexists. apply Hone.
    + destruct (py_get v "message" _) as [m|e]; cbn;
        [|eexists; exact Hnil].
      rewrite Hm1. cbn. eexists. apply Hone.
  - unfold bind, st_emit, messages_append. cbn. rewrite Hm1. cbn.
    eexists. apply Hone.
Qed.

(** Peels the script down to the chat input, the one place that writes to
    the transcript. *)
Ltac adds_page :=
  repeat (apply adds_bind_after;
          [solve [repeat keeps_step] | intro | left; reflexivity]);
  apply adds_bind_before; [|intro; solve [repeat keeps_step]].

Lemma adds_app net str i : adds (run_adds i) (app net str i).
Proof.
  unfold app. adds_page.
  destruct (chat_input i) as [[|c p]|] eqn:Hp;
    try (apply adds_of_keeps; [left; reflexivity|apply keeps_ret]).
  intros s ms Hms.
  edestruct chat_input_handler_turn as (added & Hm & Ht); [exact Hms|].
  exists added. split; [exact Hm|].
  right. exists (String c p).
  split; [exact Hp|]. split; [discriminate|exact Ht].
Qed.

Lemma app_first_run_adds net str i s :
  messages s = None ->
  exists added,
    messages (snd (app net str i s)) = Some added /\ run_adds i added.
Proof.
  intros H. unfold app.
  unfold bind at 1, st_emit at 1.
  unfold bind at 1, init_session at 1. cbn [messages]. rewrite H.
  match goal with
  | |- context [snd (?m ?s0)] =>
      assert (Hg : adds (run_adds i) m);
      [|destruct (Hg s0 [] eq_refl) as (added & Ha & Hr);
        exists added; split; [exact Ha|exact Hr]]
  end.
  adds_page.
  destruct (chat_input i) as [[|c p]|] eqn:Hp;
    try (apply adds_of_keeps; [left; reflexivity|apply keeps_ret]).
  intros s1 ms Hms.
  edestruct chat_input_handler_turn as (added & Hm & Ht); [exact Hms|].
  exists added. split; [exact Hm|].
  right. exists (String c p).
  split; [exact Hp|]. split; [discriminate|exact Ht].
Qed.

Lemma dialogue_app a b : dialogue a -> dialogue b -> dialogue (a ++ b).
Proof.
  intros Ha Hb. induction Ha; cbn; [exact Hb| |]; constructor; assumption.
Qed.

Lemma run_adds_dialogue i added : run_adds i added -> dialogue added.
Proof.
  intros [->|(prompt & _ & _ & rest & -> & [->|(c & ->)])].
  - apply dialogue_nil.
  - apply dialogue_user, dialogue_nil.
  - apply dialogue_turn, dialogue_nil.
Qed.

(** X1: a run of the script on an open session adds nothing to the
    transcript unless a non-empty prompt was submitted; with a prompt it
    adds at most the user entry holding that prompt followed by at most
    one assistant entry, whatever the service answers and whether or not
    the run raises. *)
Theorem app_adds_one_turn :
  forall net str i s ms,
    messages s = Some ms ->
    exists added,
      messages (snd (app net str i s)) = Some (ms ++ added)
      /\ (added = []
          \/ exists prompt rest,
              chat_input i = Some prompt
              /\ prompt <> ""
              /\ added = {| role := "user"; content := PStr prompt |} :: rest
              /\ (rest = []
                  \/ exists c, rest = [{| role := "assistant"; content := c |}]))
      /\ (chat_input i = None \/ chat_input i = Some "" -> added = [])
      /\ length added <= 2.
Proof.
  intros net str i s ms Hms.
  destruct (adds_app net str i s ms Hms) as (added & Hm & Hr).
  exists added. split; [exact Hm|].
  destruct Hr as [->|(prompt & Hp & Hne & rest & -> & Hrest)].
  - split; [left; reflexivity|]. split; [reflexivity|]. cbn. lia.
  - split; [right; exists prompt, rest; auto|].
    split.
    + intros [Hnone|Hempty]; congruence.
    + destruct Hrest as [->|(c & ->)]; cbn; lia.
Qed.

Lemma app_adds_one_turn_witness :
  exists added,
    messages (snd (app sample_service sample_str sample_input
                     (session_with [user_entry "old"])))
    = Some ([user_entry "old"] ++ added)
    /\ length added <= 2.
Proof.
  destruct (app_adds_one_turn sample_service sample_str sample_input
              (session_with [user_entry "old"]) [user_entry "old"] eq_refl)
    as (added & Hm & _ & _ & Hl).
  exists added. split; [exact Hm|exact Hl].
Defined.

(** X2: over any sequence of runs, a transcript made of user entries each
    followed by at most one assistant entry stays of that form; a session
    that starts without transcript has one of that form after its first
    run.  An assistant entry thus never comes first and never follows
    another assistant entry. *)
Theorem session_keeps_dialogue :
  forall str runs s,
    match messages s with
    | Some ms => dialogue ms
    | None => True
    end ->
    match messages (session str runs s) with
    | Some ms' => dialogue ms'
    | None => messages s = None /\ runs = []
    end.
Proof.
  intros str runs. induction runs as [|[net i] rest IH]; intros s Hs;
    cbn [session].
  - destruct (messages s); auto.
  - assert (Hnext : exists ms', messages (snd (app net str i s)) = Some ms'
                                /\ dialogue ms').
    { destruct (messages s) as [ms|] eqn:Hms.
      - destruct (adds_app net str i s ms Hms) as (added & Hm & Hr).
        exists (ms ++ added). split; [exact Hm|].
        apply dialogue_app; [exact Hs|].
        apply (run_adds_dialogue i). exact Hr.
      - destruct (app_first_run_adds net str i s Hms) as (added & Hm & Hr).
        exists added. split; [exact Hm|].
        apply (run_adds_dialogue i). exact Hr. }
    destruct Hnext as (ms' & Hm' & Hd').
    specialize (IH (snd (app net str i s))). rewrite Hm' in IH.
    specialize (IH Hd').
    destruct (messages (session str rest (snd (app net str i s))));
      [exact IH|].
    destruct IH as [Hcontra _]. discriminate.
Qed.

Lemma session_keeps_dialogue_witness :
  match messages
          (session sample_str
             [(sample_service, sample_input);
              (net_body (PList []), sample_input);
              (net_down "refused", sample_input)]
             new_session)
  with
  | Some ms' => dialogue ms'
  | None => messages new_session = None
            /\ [(sample_service, sample_input);
                (net_body (PList []), sample_input);
                (net_down "refused", sample_input)] = []
  end.
Proof.
  apply (session_keeps_dialogue sample_str
           [(sample_service, sample_input);
            (net_body (PList []), sample_input);
            (net_down "refused", sample_input)]
           new_session).
  exact I.
Defined.

(** ** The upload report, line by line *)

Lemma emit_all_nil s : emit_all [] s = s.
Proof. unfold emit_all. rewrite app_nil_r. destruct s; reflexivity. Qed.

Lemma emit_all_app evs evs' s :
  emit_all evs' (emit_all evs s) = emit_all (evs ++ evs') s.
Proof. unfold emit_all. cbn. rewrite app_assoc. reflexivity. Qed.

Lemma st_emit_run e s : st_emit e s = (Ok tt, emit_all [e] s).
Proof. reflexivity. Qed.

Lemma show_file_results_run str good lines rest s :
  Forall2 (fun r l => report_line str r = Ok l) good lines ->
  show_file_results str (good ++ rest) s
  = show_file_results str rest (emit_all lines s).
Proof.
  intros H. revert s.
  induction H as [|r l good lines Hr _ IH]; intros s.
  - rewrite emit_all_nil. reflexivity.
  - change ((r :: good) ++ rest) with (r :: (good ++ rest)).
    cbn [show_file_results]. unfold report_line in Hr.
    unfold bind, lift.
    destruct (status_icon r) as [icon|e]; [|discriminate].
    cbn [rbind] in Hr.
    destruct (py_getitem r "file") as [f|e]; [|discriminate].
    cbn [rbind] in Hr. injection Hr as <-.
    rewrite st_emit_run, IH, emit_all_app. reflexivity.
Qed.

Lemma show_file_results_stop str bad e rest s :
  report_line str bad = Raise e ->
  show_file_results str (bad :: rest) s = (Raise e, s).
Proof.
  intros Hr. cbn [show_file_results]. unfold report_line in Hr.
  unfold bind, lift.
  destruct (status_icon bad) as [icon|e']; [|cbn in Hr; congruence].
  cbn [rbind] in Hr.
  destruct (py_getitem bad "file") as [f|e']; [discriminate|].
  cbn in Hr. congruence.
Qed.

Lemma process_pdfs_success_run net str f files s d det results items :
  fetch_result net (upload_request (f :: files)) = Ok (PDict d) ->
  dict_get "status" d = Some (PStr "success") ->
  dict_get "details" d = Some (PDict det) ->
  dict_get "results" det = Some results ->
  py_iter results = Ok items ->
  process_pdfs net str (f :: files) s
  = show_file_results str items
      (emit_all
         [UiElement "success"
            (match dict_get "message" d with Some m => m | None => PNone end)]
         (log_request (upload_request (f :: files))
            (emit_all [UiSpinner "Processing PDFs..."] s))).
Proof.
  intros Hfetch Hstatus Hdet Hres Hiter.
  unfold process_pdfs.
  unfold bind at 1. rewrite st_emit_run.
  unfold bind at 1. rewrite upload_pdfs_run, Hfetch. cbn [caught].
  unfold bind, lift, py_get, py_contains, py_getitem.
  rewrite Hstatus. cbn [py_eq_str].
  change (String.eqb "success" "success") with true. cbv iota.
  rewrite Hdet, Hres, Hiter.
  destruct (dict_get "message" d); reflexivity.
Qed.

(** X3: after an upload that the service reports as a success with
    per-file results, the page shows the success message and then one line
    per result, in the order of the results, each made of the status icon
    and the file name; one request was sent and the transcript is
    untouched. *)
Theorem process_pdfs_report :
  forall net str f files s d det results items lines,
    fetch_result net (upload_request (f :: files)) = Ok (PDict d) ->
    dict_get "status" d = Some (PStr "success") ->
    dict_get "details" d = Some (PDict det) ->
    dict_get "results" det = Some results ->
    py_iter results = Ok items ->
    Forall2 (fun r l => report_line str r = Ok l) items lines ->
    process_pdfs net str (f :: files) s
    = (Ok tt,
       {| net_log := net_log s ++ [upload_request (f :: files)];
          ui_log :=
            ui_log s
            ++ [UiSpinner "Processing PDFs...";
                UiElement "success"
                  (match dict_get "message" d with
                   | Some m => m
                   | None => PNone
                   end)]
            ++ lines;
          messages := messages s |})
    /\ length lines = length items.
Proof.
  intros net str f files s d det results items lines
         Hfetch Hstatus Hdet Hres Hiter Hlines.
  split; [|symmetry; eapply Forall2_length; exact Hlines].
  rewrite (process_pdfs_success_run net str f files s d det results items)
    by assumption.
  rewrite <- (app_nil_r items).
  rewrite (show_file_results_run str items lines []) by exact Hlines.
  cbn [show_file_results]. unfold ret, emit_all, log_request. cbn.
  rewrite <- !app_assoc. reflexivity.
Qed.

Lemma process_pdfs_report_witness :
  process_pdfs sample_service sample_str [sample_file] new_session
  = (Ok tt,
     {| net_log := net_log new_session ++ [upload_request [sample_file]];
        ui_log :=
          ui_log new_session
          ++ [UiSpinner "Processing PDFs...";
              UiElement "success"
                (match dict_get "message"
                         [("status", PStr "success"); ("message", PStr "done");
                          ("details",
                           PDict [("results",
                                   PList [PDict [("file", PStr "a.pdf");
                                                 ("status", PStr "success")]])])]
                 with
                 | Some m => m
                 | None => PNone
                 end)]
          ++ [UiElement "text" (PStr "✅ a.pdf")];
        messages := messages new_session |})
  /\ length [UiElement "text" (PStr "✅ a.pdf")]
     = length [PDict [("file", PStr "a.pdf"); ("status", PStr "success")]].
Proof.
  apply (process_pdfs_report sample_service sample_str sample_file []
           new_session
           [("status", PStr "success"); ("message", PStr "done");
            ("details",
             PDict [("results",
                     PList [PDict [("file", PStr "a.pdf");
                                   ("status", PStr "success")]])])]
           [("results",
             PList [PDict [("file", PStr "a.pdf"); ("status", PStr "success")]])]
           (PList [PDict [("file", PStr "a.pdf"); ("status", PStr "success")]])
           [PDict [("file", PStr "a.pdf"); ("status", PStr "success")]]
           [UiElement "text" (PStr "✅ a.pdf")]);
    try reflexivity.
  apply Forall2_cons; [reflexivity|apply Forall2_nil].
Defined.

(** X4: the report stops at the first per-file result whose status or
    file name cannot be read (a missing key, a result that is not an
    object): the handler raises there, the lines of the results before it
    stay on the page and no line is written for the results after it. *)
Theorem process_pdfs_report_stops :
  forall net str f files s d det results good lines bad rest e,
    fetch_result net (upload_request (f :: files)) = Ok (PDict d) ->
    dict_get "status" d = Some (PStr "success") ->
    dict_get "details" d = Some (PDict det) ->
    dict_get "results" det = Some results ->
    py_iter results = Ok (good ++ bad :: rest) ->
    Forall2 (fun r l => report_line str r = Ok l) good lines ->
    report_line str bad = Raise e ->
    process_pdfs net str (f :: files) s
    = (Raise e,
       {| net_log := net_log s ++ [upload_request (f :: files)];
          ui_log :=
            ui_log s
            ++ [UiSpinner "Processing PDFs...";
                UiElement "success"
                  (match dict_get "message" d with
                   | Some m => m
                   | None => PNone
                   end)]
            ++ lines;
          messages := messages s |}).
Proof.
  intros net str f files s d det results good lines bad rest e
         Hfetch Hstatus Hdet Hres Hiter Hlines Hbad.
  rewrite (process_pdfs_success_run net str f files s d det results
             (good ++ bad :: rest)) by assumption.
  rewrite (show_file_results_run str good lines (bad :: rest)) by exact Hlines.
  rewrite (show_file_results_stop str bad e rest) by exact Hbad.
  unfold emit_all, log_request. cbn.
  rewrite <- !app_assoc. reflexivity.
Qed.

Lemma process_pdfs_report_stops_witness :
  process_pdfs
    (net_body
       (PDict [("status", PStr "success");
               ("details",
                PDict [("results",
                        PList [PDict [("file", PStr "a.pdf");
                                      ("status", PStr "error")];
                               PDict [("file", PStr "b.pdf")];
                               PDict [("file", PStr "c.pdf");
                                      ("status", PStr "success")]])])]))
    sample_str [sample_file] new_session
  = (Raise (KeyError "status"),
     {| net_log := net_log new_session ++ [upload_request [sample_file]];
        ui_log :=
          ui_log new_session
          ++ [UiSpinner "Processing PDFs..."; UiElement "success" PNone]
          ++ [UiElement "text" (PStr "❌ a.pdf")];
        messages := messages new_session |}).
Proof.
  apply (process_pdfs_report_stops _ sample_str sample_file [] new_session
           [("status", PStr "success");
            ("details",
             PDict [("results",
                     PList [PDict [("file", PStr "a.pdf");
                                   ("status", PStr "error")];
                            PDict [("file", PStr "b.pdf")];
                            PDict [("file", PStr "c.pdf");
                                   ("status", PStr "success")]])])]
           [("results",
             PList [PDict [("file", PStr "a.pdf"); ("status", PStr "error")];
                    PDict [("file", PStr "b.pdf")];
                    PDict [("file", PStr "c.pdf"); ("status", PStr "success")]])]
           (PList [PDict [("file", PStr "a.pdf"); ("status", PStr "error")];
                   PDict [("file", PStr "b.pdf")];
                   PDict [("file", PStr "c.pdf"); ("status", PStr "success")]])
           [PDict [("file", PStr "a.pdf"); ("status", PStr "error")]]
           [UiElement "text" (PStr "❌ a.pdf")]
           (PDict [("file", PStr "b.pdf")])
           [PDict [("file", PStr "c.pdf"); ("status", PStr "success")]]
           (KeyError "status"));
    try reflexivity.
  apply Forall2_cons; [reflexivity|apply Forall2_nil].
Defined.

(** X5: when the upload does not end in a result with status "success"
    (the service reports another status, or a [RequestException] was caught
    and turned into an error result), the page shows exactly one error
    element, holding the "message" of the result or "Unknown error" when
    there is none, and no per-file line; with no file selected the error is
    "No files selected" and no request is sent. *)
Theorem process_pdfs_error :
  forall net str f files s d,
    caught (fetch_result net (upload_request (f :: files))) = Ok (PDict d) ->
    dict_get "status" d <> Some (PStr "success") ->
    process_pdfs net str (f :: files) s
    = (Ok tt,
       {| net_log := net_log s ++ [upload_request (f :: files)];
          ui_log :=
            ui_log s
            ++ [UiSpinner "Processing PDFs...";
                UiElement "error"
                  (match dict_get "message" d with
                   | Some m => m
                   | None => PStr "Unknown error"
                   end)];
          messages := messages s |})
    /\ process_pdfs net str [] s
       = (Ok tt,
          {| net_log := net_log s;
             ui_log :=
               ui_log s
               ++ [UiSpinner "Processing PDFs...";
                   UiElement "error" (PStr "No files selected")];
             messages := messages s |}).
Proof.
  intros net str f files s d Hup Hstatus. split.
  - unfold process_pdfs.
    unfold bind at 1. rewrite st_emit_run.
    unfold bind at 1. rewrite upload_pdfs_run, Hup.
    unfold bind, lift, py_get, st_emit, emit_all, log_request.
    destruct (dict_get "status" d) as [v|] eqn:Hv.
    + rewrite py_eq_str_false by congruence.
      destruct (dict_get "message" d); cbn; rewrite <- app_assoc; reflexivity.
    + cbn [py_eq_str].
      destruct (dict_get "message" d); cbn; rewrite <- app_assoc; reflexivity.
  - unfold process_pdfs, bind, lift, st_emit. cbn.
    rewrite <- app_assoc. reflexivity.
Qed.

Lemma process_pdfs_error_witness :
  process_pdfs (net_down "refused") sample_str [sample_file] new_session
  = (Ok tt,
     {| net_log := net_log new_session ++ [upload_request [sample_file]];
        ui_log :=
          ui_log new_session
          ++ [UiSpinner "Processing PDFs...";
              UiElement "error"
                (match dict_get "message"
                         [("status", PStr "error");
                          ("message", PStr "API error: refused")]
                 with
                 | Some m => m
                 | None => PStr "Unknown error"
                 end)];
        messages := messages new_session |}).
Proof.
  destruct (process_pdfs_error (net_down "refused") sample_str sample_file []
              new_session
              [("status", PStr "error"); ("message", PStr "API error: refused")])
    as (H & _).
  - reflexivity.
  - discriminate.
  - exact H.
Defined.

(** ** What the helpers raise *)

(** X6: [check_api_status] and [get_available_modes] never raise: whatever
    happens to the call they return a value, after sending exactly one GET
    request, to the status and to the modes endpoint. *)
Theorem status_and_modes_never_raise :
  forall net s,
    (exists v, check_api_status net s
               = (Ok v, {| net_log := net_log s ++ [Get (API_URL ++ "/status/")%string];
                           ui_log := ui_log s;
                           messages := messages s |}))
    /\ (exists v, get_available_modes net s
                  = (Ok v, {| net_log := net_log s ++ [Get (API_URL ++ "/modes/")%string];
                              ui_log := ui_log s;
                              messages := messages s |})).
Proof.
  intros net s. split.
  - rewrite check_api_status_run.
    destruct (fetch_result net status_request) as [v|e]; eexists; reflexivity.
  - rewrite get_available_modes_run.
    destruct (fetch_result net modes_request) as [v|e]; eexists; reflexivity.
Qed.

Lemma caught_raise r e :
  caught r = Raise e <->
  r = Raise e /\ forall msg, e <> RequestException msg.
Proof.
  unfold caught. split.
  - destruct r as [v|[]]; try discriminate; intros [= <-];
      (split; [reflexivity|discriminate]).
  - intros [-> Hne]. destruct e; try reflexivity.
    exfalso. apply (Hne msg). reflexivity.
Qed.

Lemma sendable_query_request q mode :
  sendable (query_request q mode) = json_compliant mode.
Proof. cbn. destruct (json_compliant mode); reflexivity. Qed.

Lemma fetch_result_unsendable net r :
  sendable r = false ->
  fetch_result net r = Raise (RequestException json_error_text).
Proof. unfold fetch_result. intros ->. reflexivity. Qed.

(** X7: [query_rag] and [upload_pdfs] (with a file) raise exactly when their
    call raises an exception that is not a [RequestException], and then
    with that exception.  [upload_pdfs] has then sent exactly one request;
    [query_rag] has sent exactly one request when the mode can be
    serialised, and when it cannot (a NaN or an infinity) it has sent none
    and returns the error result with the text of the serialisation
    error. *)
Theorem helpers_raise_iff :
  forall net s q mode f files e,
    (fst (query_rag net q mode s) = Raise e
     <-> fetch_result net (query_request q mode) = Raise e
         /\ forall msg, e <> RequestException msg)
    /\ (fst (upload_pdfs net (f :: files) s) = Raise e
        <-> fetch_result net (upload_request (f :: files)) = Raise e
            /\ forall msg, e <> RequestException msg)
    /\ net_log (snd (query_rag net q mode s))
       = net_log s
         ++ (if json_compliant mode then [query_request q mode] else [])
    /\ (json_compliant mode = false ->
        fst (query_rag net q mode s)
        = Ok (error_result ("API error: " ++ json_error_text)%string))
    /\ net_log (snd (upload_pdfs net (f :: files) s))
       = net_log s ++ [upload_request (f :: files)].
Proof.
  intros net s q mode f files e.
  rewrite query_rag_run, upload_pdfs_run. cbn [fst snd].
  split; [apply caught_raise|]. split; [apply caught_raise|].
  split; [|split].
  - unfold log_request. cbn [net_log].
    rewrite sendable_query_request. reflexivity.
  - intros Hbad. rewrite fetch_result_unsendable; [reflexivity|].
    rewrite sendable_query_request. exact Hbad.
  - reflexivity.
Qed.

Lemma helpers_raise_iff_witness :
  fst (query_rag sample_service "hi" (PFloat FNaN) new_session)
  = Ok (error_result ("API error: " ++ json_error_text)%string)
  /\ net_log (snd (query_rag sample_service "hi" (PFloat FNaN) new_session))
     = net_log new_session ++ []
  /\ net_log (snd (query_rag sample_service "hi" (PStr "hybrid") new_session))
     = net_log new_session ++ [query_request "hi" (PStr "hybrid")].
Proof.
  split; [|split].
  - destruct (helpers_raise_iff sample_service new_session "hi" (PFloat FNaN)
                sample_file [] TypeError) as (_ & _ & _ & H & _).
    apply H. reflexivity.
  - destruct (helpers_raise_iff sample_service new_session "hi" (PFloat FNaN)
                sample_file [] TypeError) as (_ & _ & H & _).
    exact H.
  - destruct (helpers_raise_iff sample_service new_session "hi" (PStr "hybrid")
                sample_file [] TypeError) as (_ & _ & H & _).
    exact H.
Defined.

(** X8: the readiness flag is true exactly when the status call returns an
    object whose "status" is the string "ready"; computing it raises exactly
    when the call returns a decoded body that is not an object, and then
    with [AttributeError]. *)
Theorem fetch_api_ready_cases :
  forall net s,
    (fst (fetch_api_ready net s) = Ok true
     <-> exists d, fetch_result net status_request = Ok (PDict d)
                   /\ dict_get "status" d = Some (PStr "ready"))
    /\ (forall e,
           fst (fetch_api_ready net s) = Raise e
           <-> e = AttributeError
               /\ exists v, fetch_result net status_request = Ok v
                            /\ is_dict v = false).
Proof.
  intros net s.
  unfold fetch_api_ready, bind. rewrite check_api_status_run.
  unfold lift, api_ready_of, py_get.
  destruct (fetch_result net status_request) as [v|e0]; cbn [fst rbind].
  - destruct v as [| | | | | |d];
      try (split;
           [ split; [discriminate|intros (d & Hd & _); discriminate]
           | intros e; split;
             [ intros [= <-]; split; [reflexivity|eexists; split; reflexivity]
             | intros [-> _]; reflexivity ] ]).
    split.
    + destruct (dict_get "status" d) as [st|] eqn:Hst; cbn [rbind].
      * split.
        -- intros [= H]. exists d. split; [reflexivity|].
           destruct st; try discriminate. cbn in H.
           apply String.eqb_eq in H. congruence.
        -- intros (d' & [= <-] & Hd'). rewrite Hst in Hd'.
           injection Hd' as ->. reflexivity.
      * split; [discriminate|].
        intros (d' & [= <-] & Hd'). congruence.
    + intros e. split.
      * destruct (dict_get "status" d); discriminate.
      * intros (_ & v & [= <-] & Hv). discriminate.
  - split.
    + split; [discriminate|intros (d & Hd & _); discriminate].
    + intros e. split; [discriminate|intros (_ & v & Hv & _); discriminate].
Qed.

(** ** The requests of a run *)

Lemma app_page net str i :
  app net str i
  = (st_emit (UiElement "title" (PStr "LightRAG - BulkChat")) ;;;
     init_session ;;;
     api_ready <- fetch_api_ready net ;;
     page net str i api_ready).
Proof. reflexivity. Qed.

Lemma fetch_api_ready_run net s :
  fetch_api_ready net s
  = (api_ready_of
       (match fetch_result net status_request with
        | Ok v => v
        | Raise _ => error_result "API is not available"
        end),
     log_request status_request s).
Proof.
  unfold fetch_api_ready, bind. rewrite check_api_status_run.
  destruct (fetch_result net status_request) as [v|e]; cbn [lift].
  - destruct (api_ready_of v); reflexivity.
  - reflexivity.
Qed.

Lemma silent_ret {A} (a : A) : silent (ret a).
Proof. intros s. reflexivity. Qed.

Lemma silent_lift {A} (r : result A) : silent (lift r).
Proof. intros s. reflexivity. Qed.

Lemma silent_st_emit e : silent (st_emit e).
Proof. intros s. reflexivity. Qed.

Lemma silent_messages_append m : silent (messages_append m).
Proof. intros s. unfold messages_append. destruct (messages s); reflexivity. Qed.

Lemma silent_init_session : silent init_session.
Proof. intros s. unfold init_session. destruct (messages s); reflexivity. Qed.

Lemma silent_bind {A B} (m : M A) (k : A -> M B) :
  silent m -> (forall a, silent (k a)) -> silent (bind m k).
Proof.
  intros Hm Hk s. unfold bind. pose proof (Hm s) as H1.
  destruct (m s) as [[a|e] s1]; cbn [snd] in *; [|exact H1].
  rewrite Hk. exact H1.
Qed.

Create HintDb silent.
#[local] Hint Resolve silent_ret silent_lift silent_st_emit
  silent_messages_append silent_init_session : silent.

Ltac silent_step :=
  match goal with
  | |- silent (bind _ _) => apply silent_bind; [|intro]
  | |- silent (if ?b then _ else _) => destruct b
  | |- silent (match ?x with _ => _ end) => destruct x
  | |- silent _ => solve [auto with silent]
  end.

Lemma silent_show_file_results str results : silent (show_file_results str results).
Proof.
  induction results as [|r rest IH]; cbn [show_file_results];
    repeat silent_step.
Qed.

Lemma silent_show_status ready : silent (show_status ready).
Proof. unfold show_status. repeat silent_step. Qed.

Lemma silent_display_chat : silent display_chat.
Proof.
  intros s. unfold display_chat, bind, st_emit. cbn.
  destruct (messages s); [|reflexivity].
  rewrite show_messages_run. reflexivity.
Qed.

#[local] Hint Resolve silent_show_file_results silent_show_status
  silent_display_chat : silent.

Lemma in_stages_nil lo hi : in_stages lo hi [].
Proof. split; constructor. Qed.

Lemma in_stages_one r n : stage r = n -> in_stages n (S n) [r].
Proof.
  intros <-. split; cbn.
  - repeat constructor.
  - repeat constructor; lia.
Qed.

Lemma in_stages_weaken lo hi lo' hi' l :
  in_stages lo hi l -> lo' <= lo -> hi <= hi' -> in_stages lo' hi' l.
Proof.
  intros [Hs Hf] Hlo Hhi. split; [exact Hs|].
  eapply Forall_impl; [|exact Hf]. cbn. intros r Hr. lia.
Qed.

Lemma in_stages_app lo mid hi l1 l2 :
  in_stages lo mid l1 -> in_stages mid hi l2 ->
  lo <= mid -> mid <= hi ->
  in_stages lo hi (l1 ++ l2).
Proof.
  intros [Hs1 Hf1] [Hs2 Hf2] Hlo Hhi. split.
  - rewrite map_app. clear Hlo Hhi.
    induction l1 as [|r l1 IH]; cbn; [exact Hs2|].
    cbn in Hs1. apply StronglySorted_inv in Hs1 as [Hs1 Hr].
    apply Forall_cons_iff in Hf1 as [Hr1 Hf1].
    constructor; [apply IH; assumption|].
    apply Forall_app. split; [exact Hr|].
    apply Forall_map. eapply Forall_impl; [|exact Hf2].
    cbn. intros r2 Hr2. lia.
  - apply Forall_app. split.
    + eapply Forall_impl; [|exact Hf1]. cbn. intros r Hr. lia.
    + eapply Forall_impl; [|exact Hf2]. cbn. intros r Hr. lia.
Qed.

Lemma in_stages_length lo hi l : in_stages lo hi l -> length l <= hi - lo.
Proof.
  intros [Hs Hf]. revert lo Hf.
  induction l as [|r l IH]; intros lo Hf; cbn; [lia|].
  cbn in Hs. apply StronglySorted_inv in Hs as [Hs Hr].
  apply Forall_cons_iff in Hf as [Hr1 Hf].
  assert (Hf' : Forall (fun r' => S (stage r) <= stage r' < hi) l).
  { rewrite Forall_map in Hr. rewrite Forall_forall in *.
    intros r' Hin. specialize (Hr r' Hin). specialize (Hf r' Hin). lia. }
  specialize (IH Hs _ Hf'). lia.
Qed.

Lemma sends_of_silent {A} lo hi (m : M A) : silent m -> sends lo hi m.
Proof.
  intros Hm s. exists []. rewrite app_nil_r. split; [apply Hm|].
  apply in_stages_nil.
Qed.

Lemma sends_weaken {A} lo hi lo' hi' (m : M A) :
  sends lo hi m -> lo' <= lo -> hi <= hi' -> sends lo' hi' m.
Proof.
  intros Hm Hlo Hhi s. destruct (Hm s) as (added & H & Hin).
  exists added. split; [exact H|]. eapply in_stages_weaken; eassumption.
Qed.

Lemma sends_bind {A B} lo mid hi (m : M A) (k : A -> M B) :
  sends lo mid m -> (forall a, sends mid hi (k a)) ->
  lo <= mid -> mid <= hi ->
  sends lo hi (bind m k).
Proof.
  intros Hm Hk Hlo Hhi s. unfold bind.
  destruct (Hm s) as (a1 & H1 & Hin1).
  destruct (m s) as [[a|e] s1]; cbn [snd] in *.
  - destruct (Hk a s1) as (a2 & H2 & Hin2).
    exists (a1 ++ a2). rewrite H2, H1, app_assoc. split; [reflexivity|].
    eapply in_stages_app; eassumption.
  - exists a1. split; [exact H1|].
    eapply in_stages_weaken; [exact Hin1|lia|lia].
Qed.

Lemma sends_bind_silent {A B} lo hi (m : M A) (k : A -> M B) :
  silent m -> (forall a, sends lo hi (k a)) -> lo <= hi ->
  sends lo hi (bind m k).
Proof.
  intros Hm Hk Hle. apply (sends_bind lo lo hi); auto.
  apply sends_of_silent. exact Hm.
Qed.

Lemma sends_then_silent {A B} lo hi (m : M A) (k : A -> M B) :
  sends lo hi m -> (forall a, silent (k a)) -> lo <= hi ->
  sends lo hi (bind m k).
Proof.
  intros Hm Hk Hle. apply (sends_bind lo hi hi); auto.
  intros a. apply sends_of_silent. apply Hk.
Qed.

Lemma sends_log_request {A} n (r : request) (res : result A) (m : M A) :
  stage r = n ->
  (forall s, m s = (res, log_request r s)) ->
  sends n (S n) m.
Proof.
  intros Hst Hm s. exists (if sendable r then [r] else []). rewrite Hm.
  split; [reflexivity|].
  destruct (sendable r).
  - apply in_stages_one. exact Hst.
  - apply in_stages_nil.
Qed.

Lemma sends_fetch_api_ready net : sends 0 1 (fetch_api_ready net).
Proof.
  eapply (sends_log_request 0 status_request); [reflexivity|].
  intros s. apply fetch_api_ready_run.
Qed.

Lemma sends_upload_pdfs net files : sends 1 2 (upload_pdfs net files).
Proof.
  destruct files as [|f files].
  - apply sends_of_silent. intros s. reflexivity.
  - eapply (sends_log_request 1 (upload_request (f :: files)));
      [reflexivity|].
    intros s. apply upload_pdfs_run.
Qed.

Lemma sends_get_available_modes net : sends 2 3 (get_available_modes net).
Proof.
  eapply (sends_log_request 2 modes_request); [reflexivity|].
  intros s. apply get_available_modes_run.
Qed.

Lemma sends_query_rag net q mode : sends 3 4 (query_rag net q mode).
Proof.
  eapply (sends_log_request 3 (query_request q mode)); [reflexivity|].
  intros s. apply query_rag_run.
Qed.

Lemma sends_process_pdfs net str files : sends 1 2 (process_pdfs net str files).
Proof.
  unfold process_pdfs.
  apply sends_bind_silent; [auto with silent| |lia]. intros _.
  apply sends_then_silent; [apply sends_upload_pdfs| |lia].
  intros a. repeat silent_step.
Qed.

Lemma sends_select_mode net str choice : sends 2 3 (select_mode net str choice).
Proof.
  unfold select_mode.
  apply sends_bind_silent; [auto with silent| |lia]. intros _.
  apply sends_then_silent; [apply sends_get_available_modes| |lia].
  intros a. repeat silent_step.
Qed.

Lemma silent_chat_input_handler_not_ready net str mode prompt :
  silent (chat_input_handler net str false mode prompt).
Proof. unfold chat_input_handler. repeat silent_step. Qed.

Lemma sends_chat_input_handler net str ready mode prompt :
  sends 3 4 (chat_input_handler net str ready mode prompt).
Proof.
  destruct ready;
    [|apply sends_of_silent, silent_chat_input_handler_not_ready].
  unfold chat_input_handler.
  do 5 (apply sends_bind_silent; [auto with silent|intros _|lia]).
  apply sends_then_silent; [apply sends_query_rag| |lia].
  intros a. repeat silent_step.
Qed.

Lemma sends_page net str i (ready : bool) :
  sends 1 (if ready then 4 else 3) (page net str i ready).
Proof.
  assert (Hhi : 3 <= (if ready then 4 else 3)) by (destruct ready; lia).
  unfold page.
  apply sends_bind_silent; [auto with silent|intros _|lia].
  apply (sends_bind 1 2 _);
    [destruct (button_clicked i);
     [apply sends_process_pdfs|apply sends_of_silent, silent_ret]
    |intros _|lia|lia].
  apply sends_bind_silent; [auto with silent|intros _|lia].
  apply (sends_bind 2 3 _); [apply sends_select_mode|intros mode|lia|lia].
  do 3 (apply sends_bind_silent; [auto with silent|intros _|lia]).
  apply sends_then_silent; [| intros _; repeat silent_step | lia].
  destruct (chat_input i) as [[|c p]|];
    try (apply sends_of_silent, silent_ret).
  destruct ready.
  - apply sends_chat_input_handler.
  - apply sends_of_silent, silent_chat_input_handler_not_ready.
Qed.

Lemma sends_app net str i : sends 0 4 (app net str i).
Proof.
  rewrite app_page.
  do 2 (apply sends_bind_silent; [auto with silent|intros _|lia]).
  apply (sends_bind 0 1 4); [apply sends_fetch_api_ready| |lia|lia].
  intros ready. eapply sends_weaken; [apply sends_page|lia|].
  destruct ready; lia.
Qed.

Lemma app_requests net str i s :
  exists rest,
    net_log (snd (app net str i s)) = net_log s ++ status_request :: rest
    /\ in_stages 1
         (match api_ready_of
                  (match fetch_result net status_request with
                   | Ok v => v
                   | Raise _ => error_result "API is not available"
                   end)
          with
          | Ok true => 4
          | _ => 3
          end) rest.
Proof.
  rewrite app_page.
  unfold bind at 1, st_emit at 1.
  unfold bind at 1.
  assert (Hinit : exists s2, init_session
                               {| net_log := net_log s;
                                  ui_log := ui_log s
                                            ++ [UiElement "title"
                                                  (PStr "LightRAG - BulkChat")];
                                  messages := messages s |} = (Ok tt, s2)
                             /\ net_log s2 = net_log s).
  { unfold init_session. cbn. destruct (messages s); eexists; split; reflexivity. }
  destruct Hinit as (s2 & -> & Hlog).
  unfold bind. rewrite fetch_api_ready_run.
  destruct (api_ready_of _) as [ready|e].
  - destruct (sends_page net str i ready (log_request status_request s2))
      as (rest & Hrest & Hin).
    exists rest. rewrite Hrest. cbn [log_request net_log]. rewrite Hlog.
    rewrite <- app_assoc. split; [reflexivity|].
    destruct ready; exact Hin.
  - exists []. cbn [snd log_request net_log]. rewrite Hlog.
    split; [reflexivity|apply in_stages_nil].
Qed.

(** X9: every run of the script sends the status request first, and then
    at most three more requests, in the order upload, modes, query, each
    at most once: never more than four requests, whatever the service
    answers and wherever the run may raise. *)
Theorem app_requests_in_order :
  forall net str i s,
    exists rest,
      net_log (snd (app net str i s))
      = net_log s ++ Get (API_URL ++ "/status/")%string :: rest
      /\ StronglySorted lt (map stage rest)
      /\ Forall (fun r => 1 <= stage r) rest
      /\ length rest <= 3.
Proof.
  intros net str i s.
  destruct (app_requests net str i s) as (rest & Hlog & Hin).
  exists rest. split; [exact Hlog|].
  assert (Hin' : in_stages 1 4 rest).
  { eapply in_stages_weaken; [exact Hin|lia|].
    destruct (api_ready_of _) as [[]|]; lia. }
  split; [apply Hin'|]. split.
  - destruct Hin' as [_ Hf]. eapply Forall_impl; [|exact Hf].
    cbn. intros r Hr. lia.
  - apply in_stages_length in Hin'. lia.
Qed.

Lemma api_ready_of_true v :
  api_ready_of v = Ok true ->
  exists d, v = PDict d /\ dict_get "status" d = Some (PStr "ready").
Proof.
  unfold api_ready_of, py_get. destruct v as [| | | | | |d]; try discriminate.
  exists d. split; [reflexivity|].
  destruct (dict_get "status" d) as [st|]; cbn in H; [|discriminate].
  destruct st; try discriminate. cbn in H. injection H as H.
  apply String.eqb_eq in H. congruence.
Qed.

(** X10: when the status call does not return an object whose "status" is
    "ready" (it fails, or the body says something else), the run sends no
    request to the query endpoint, even with a prompt submitted. *)
Theorem app_not_ready_sends_no_query :
  forall net str i s,
    (forall d,
        fetch_result net status_request = Ok (PDict d) ->
        dict_get "status" d <> Some (PStr "ready")) ->
    exists rest,
      net_log (snd (app net str i s))
      = net_log s ++ Get (API_URL ++ "/status/")%string :: rest
      /\ Forall (fun r => forall url body, r <> PostJson url body) rest.
Proof.
  intros net str i s Hnot.
  destruct (app_requests net str i s) as (rest & Hlog & Hin).
  exists rest. split; [exact Hlog|].
  assert (Hin' : in_stages 1 3 rest).
  { destruct (api_ready_of _) as [[]|] eqn:Hr; try exact Hin.
    apply api_ready_of_true in Hr as (d & Hv & Hst).
    destruct (fetch_result net status_request) as [v|e] eqn:Hf.
    - subst v. exfalso. exact (Hnot d eq_refl Hst).
    - injection Hv as <-. cbn in Hst. discriminate. }
  destruct Hin' as [_ Hf]. eapply Forall_impl; [|exact Hf].
  cbn. intros r Hr url body ->. cbn in Hr. lia.
Qed.

Lemma app_not_ready_sends_no_query_witness :
  exists rest,
    net_log (snd (app (net_body (PDict [("status", PStr "empty")])) sample_str
                    sample_input new_session))
    = net_log new_session ++ Get (API_URL ++ "/status/")%string :: rest
    /\ Forall (fun r => forall url body, r <> PostJson url body) rest.
Proof.
  apply (app_not_ready_sends_no_query
           (net_body (PDict [("status", PStr "empty")])) sample_str
           sample_input new_session).
  intros d H. cbn in H. injection H as <-. cbn. discriminate.
Defined.

(** X11: a query handled while ready sends exactly one request, the POST to
    the query endpoint with the JSON body [{"query": prompt, "mode":
    selected_mode}], whatever the outcome of the call and of the handling of
    its result, provided the selected mode can be serialised.  When it
    cannot (a NaN or an infinity), no request is sent and the assistant
    entry holds the serialisation error. *)
Theorem chat_input_handler_one_request :
  forall net str mode prompt s ms,
    messages s = Some ms ->
    net_log (snd (chat_input_handler net str true mode prompt s))
    = net_log s
      ++ (if json_compliant mode
          then [PostJson (API_URL ++ "/query/")%string
                  (PDict [("query", PStr prompt); ("mode", mode)])]
          else [])
    /\ (json_compliant mode = false ->
        fst (chat_input_handler net str true mode prompt s) = Ok tt
        /\ messages (snd (chat_input_handler net str true mode prompt s))
           = Some (ms ++ [{| role := "user"; content := PStr prompt |};
                          {| role := "assistant";
                             content :=
                               PStr ("Error: API error: " ++ json_error_text)%string |}])).
Proof.
  intros net str mode prompt s ms Hms. split.
  - destruct (chat_input_handler_user_first net str true mode prompt s ms Hms)
      as (s1 & _ & Hl1 & ->).
    match goal with
    | |- net_log (snd (bind ?m ?k ?s0)) = _ =>
        assert (Hk : forall a, silent (k a)) by (intro; repeat silent_step);
        unfold bind at 1; rewrite query_rag_run;
        destruct (caught _) as [v|e]; cbn [snd];
        [etransitivity; [apply (Hk v)|]|];
        unfold log_request; cbn [net_log];
        rewrite Hl1, sendable_query_request; reflexivity
    end.
  - intros Hbad.
    destruct (chat_input_handler_ready_run net str mode prompt s ms
                [("status", PStr "error");
                 ("message", PStr ("API error: " ++ json_error_text)%string)]
                Hms) as (s' & -> & Hm & _).
    + rewrite fetch_result_unsendable; [reflexivity|].
      rewrite sendable_query_request. exact Hbad.
    + split; [reflexivity|exact Hm].
Qed.

Lemma chat_input_handler_one_request_witness :
  net_log (snd (chat_input_handler (net_body (PList [])) sample_str true
                  (PStr "hybrid") "hi" (session_with [])))
  = net_log (session_with [])
    ++ (if json_compliant (PStr "hybrid")
        then [PostJson (API_URL ++ "/query/")%string
                (PDict [("query", PStr "hi"); ("mode", PStr "hybrid")])]
        else [])
  /\ net_log (snd (chat_input_handler sample_service sample_str true
                     (PFloat FNaN) "hi" (session_with [])))
     = net_log (session_with [])
  /\ messages (snd (chat_input_handler sample_service sample_str true
                      (PFloat FNaN) "hi" (session_with [])))
     = Some ([] ++ [{| role := "user"; content := PStr "hi" |};
                    {| role := "assistant";
                       content :=
                         PStr ("Error: API error: " ++ json_error_text)%string |}]).
Proof.
  split; [|split].
  - destruct (chat_input_handler_one_request (net_body (PList [])) sample_str
                (PStr "hybrid") "hi" (session_with []) [] eq_refl) as (H & _).
    exact H.
  - destruct (chat_input_handler_one_request sample_service sample_str
                (PFloat FNaN) "hi" (session_with []) [] eq_refl) as (H & _).
    rewrite H. reflexivity.
  - destruct (chat_input_handler_one_request sample_service sample_str
                (PFloat FNaN) "hi" (session_with []) [] eq_refl) as (_ & H).
    apply H. reflexivity.
Defined.

(** ** The mode selector, continued *)

(** X12: when the modes call fails, the selector offers the five built-in
    modes, labelled "name - description" in the built-in order, with index
    0; the selected mode is the user's choice if there is one and "hybrid"
    otherwise.  One request was sent. *)
Theorem select_mode_fallback :
  forall net str choice s e,
    fetch_result net modes_request = Raise e ->
    select_mode net str choice s
    = (Ok (match choice with
           | Some picked => picked
           | None => PStr "hybrid"
           end),
       {| net_log := net_log s ++ [Get (API_URL ++ "/modes/")%string];
          ui_log :=
            ui_log s
            ++ [UiElement "header" (PStr "Settings");
                UiSelectbox "Search Mode"
                  ["hybrid - Combines local and global approaches";
                   "local - Uses local context for retrieving relevant information";
                   "global - Uses global context for broader information retrieval";
                   "naive - Simple text matching without context awareness";
                   "mix - Mix of different search strategies"] 0];
          messages := messages s |}).
Proof.
  intros net str choice s e H.
  unfold select_mode.
  unfold bind at 1, st_emit at 1.
  unfold bind at 1. rewrite get_available_modes_run, H.
  unfold bind, lift, st_emit, log_request. cbn.
  rewrite <- app_assoc. destruct choice; reflexivity.
Qed.

Lemma select_mode_fallback_witness :
  fst (select_mode (net_http_error "404 Not Found") sample_str None new_session)
  = Ok (PStr "hybrid").
Proof.
  rewrite (select_mode_fallback (net_http_error "404 Not Found") sample_str
             None new_session (RequestException "404 Not Found")).
  - reflexivity.
  - reflexivity.
Defined.

Lemma list_index_found x l :
  among x l = true -> exists i, list_index x l = Ok i /\ i < length l.
Proof.
  intros H. destruct (list_index_among x l H) as (i & k & Hi & Hn & _).
  exists i. split; [exact Hi|].
  apply nth_error_Some. congruence.
Qed.

(** X13: the index handed to the selector is always valid: it is below the
    number of options, or 0 when there is no option.  The test
    [default_mode in mode_options] guards [.index], which therefore never
    raises [ValueError]; the only failure is the [TypeError] of an
    unhashable default mode (a JSON array or object). *)
Theorem default_index_in_range :
  forall default_mode opts,
    match default_index default_mode opts with
    | Ok i => i < length (odict_keys opts) \/ (opts = [] /\ i = 0)
    | Raise e => e = TypeError /\ hashable default_mode = false
    end.
Proof.
  intros default_mode opts.
  unfold default_index, odict_contains.
  destruct (hashable default_mode); cbn [rbind]; [|auto].
  fold (among default_mode (odict_keys opts)).
  destruct (among default_mode (odict_keys opts)) eqn:Ha.
  - destruct (list_index_found _ _ Ha) as (i & -> & Hlt). left. exact Hlt.
  - destruct opts as [|kv opts]; [right; auto|left; cbn; lia].
Qed.

Lemma odict_set_keys k v d :
  (among k (odict_keys d) = true
   /\ odict_keys (odict_set k v d) = odict_keys d)
  \/ (among k (odict_keys d) = false
      /\ odict_keys (odict_set k v d) = odict_keys d ++ [k]).
Proof.
  unfold among, odict_keys.
  induction d as [|[k' v'] d IH]; cbn.
  - right. auto.
  - destruct (py_same k' k) eqn:Hk; cbn.
    + left. auto.
    + destruct IH as [[Ha Hkeys]|[Ha Hkeys]]; [left|right];
        rewrite Ha, Hkeys; auto.
Qed.

Lemma distinct_snoc k l :
  ForallOrdPairs (fun a b => py_same a b = false) l ->
  among k l = false ->
  ForallOrdPairs (fun a b => py_same a b = false) (l ++ [k]).
Proof.
  unfold among. induction l as [|a l IH]; cbn; intros Hd Ha.
  - repeat constructor.
  - apply orb_false_iff in Ha as [Hak Ha].
    inversion Hd as [|a' l' Hfa Hd']; subst.
    constructor; [|apply IH; assumption].
    apply Forall_app. split; [exact Hfa|]. repeat constructor. exact Hak.
Qed.

Lemma mode_options_of_distinct items : forall acc opts,
  mode_options_of items acc = Ok opts ->
  ForallOrdPairs (fun a b => py_same a b = false) (odict_keys acc) ->
  ForallOrdPairs (fun a b => py_same a b = false) (odict_keys opts)
  /\ length (odict_keys opts) <= length (odict_keys acc) + length items.
Proof.
  induction items as [|mode rest IH]; intros acc opts H Hd;
    cbn [mode_options_of] in H.
  - injection H as <-. split; [exact Hd|lia].
  - destruct (py_getitem mode "name") as [k|e]; cbn [rbind] in H;
      [|discriminate].
    destruct (py_getitem mode "description") as [v|e]; cbn [rbind] in H;
      [|discriminate].
    destruct (hashable k); [|discriminate].
    destruct (odict_set_keys k v acc) as [[Ha Hkeys]|[Ha Hkeys]].
    + destruct (IH _ _ H) as [Hd' Hlen]; [rewrite Hkeys; exact Hd|].
      split; [exact Hd'|]. rewrite Hkeys in Hlen. cbn [length]. lia.
    + destruct (IH _ _ H) as [Hd' Hlen].
      * rewrite Hkeys. apply distinct_snoc; assumption.
      * split; [exact Hd'|].
        rewrite Hkeys, length_app in Hlen. cbn [length] in *. lia.
Qed.

Lemma py_same_refl k : hashable k = true -> py_same k k = true.
Proof.
  unfold hashable, py_same, py_eq.
  destruct (key_of k) as [[]|]; try discriminate; intros _; cbn.
  - reflexivity.
  - rewrite Z.eqb_refl, Nat.eqb_refl. reflexivity.
  - destruct negative; reflexivity.
  - reflexivity.
  - apply String.eqb_refl.
Qed.

Lemma mode_options_of_hashable items : forall acc opts,
  mode_options_of items acc = Ok opts ->
  Forall (fun k => hashable k = true) (odict_keys acc) ->
  Forall (fun k => hashable k = true) (odict_keys opts).
Proof.
  induction items as [|mode rest IH]; intros acc opts H Hh;
    cbn [mode_options_of] in H.
  - injection H as <-. exact Hh.
  - destruct (py_getitem mode "name") as [k|e]; cbn [rbind] in H;
      [|discriminate].
    destruct (py_getitem mode "description") as [v|e]; cbn [rbind] in H;
      [|discriminate].
    destruct (hashable k) eqn:Hk; [|discriminate].
    apply (IH _ _ H).
    destruct (odict_set_keys k v acc) as [[_ ->]|[_ ->]]; [exact Hh|].
    apply Forall_app. split; [exact Hh|]. repeat constructor. exact Hk.
Qed.

Lemma distinct_NoDup l :
  Forall (fun k => hashable k = true) l ->
  ForallOrdPairs (fun a b => py_same a b = false) l ->
  NoDup l.
Proof.
  intros Hh Hd. induction Hd as [|a l Ha Hd IH]; [constructor|].
  apply Forall_cons_iff in Hh as [Hha Hh].
  constructor; [|apply IH; exact Hh].
  intros Hin. rewrite Forall_forall in Ha. specialize (Ha a Hin).
  rewrite (py_same_refl a Hha) in Ha. discriminate.
Qed.

(** X14: the options built from the listed modes have pairwise different
    keys (no two are the same object or equal for Python's [==]) and no key
    occurs twice, so a name listed several times, a NaN included, gives
    one option; there are at most as many options as listed modes, and a
    name is an option exactly when it is listed. *)
Theorem mode_options_distinct :
  forall items opts,
    mode_options_of items [] = Ok opts ->
    ForallOrdPairs (fun a b => py_same a b = false) (odict_keys opts)
    /\ NoDup (odict_keys opts)
    /\ length (odict_keys opts) <= length items
    /\ (forall x, among x (odict_keys opts) = among x (mode_names items))
    /\ (forall n, In (PStr n) (odict_keys opts) <-> In (PStr n) (mode_names items)).
Proof.
  intros items opts H.
  destruct (mode_options_of_distinct items [] opts H) as [Hd Hlen];
    [constructor|].
  assert (Ha : forall x, among x (odict_keys opts) = among x (mode_names items))
    by (intros x; apply (among_mode_options_of x items [] opts H)).
  split; [exact Hd|].
  split.
  { apply distinct_NoDup; [|exact Hd].
    apply (mode_options_of_hashable items [] opts H). constructor. }
  split; [exact Hlen|]. split; [exact Ha|].
  intros n. rewrite <- !among_str, Ha. reflexivity.
Qed.

Lemma mode_options_distinct_witness :
  NoDup (odict_keys [(PFloat FNaN, PStr "odd again"); (PStr "local", PStr "again")])
  /\ length (odict_keys [(PFloat FNaN, PStr "odd again");
                         (PStr "local", PStr "again")])
     <= length [PDict [("name", PFloat FNaN); ("description", PStr "odd")];
                mode_descriptor "local" "near";
                PDict [("name", PFloat FNaN); ("description", PStr "odd again")];
                mode_descriptor "local" "again"].
Proof.
  destruct (mode_options_distinct
              [PDict [("name", PFloat FNaN); ("description", PStr "odd")];
               mode_descriptor "local" "near";
               PDict [("name", PFloat FNaN); ("description", PStr "odd again")];
               mode_descriptor "local" "again"]
              [(PFloat FNaN, PStr "odd again"); (PStr "local", PStr "again")]
              eq_refl) as (_ & Hn & Hlen & _).
  split; [exact Hn|exact Hlen].
Defined.

(** ** A run that stops in the sidebar *)

Lemma select_mode_bad_modes net str choice s v :
  fetch_result net modes_request = Ok v ->
  is_dict v = false ->
  select_mode net str choice s
  = (Raise AttributeError,
     {| net_log := net_log s ++ [modes_request];
        ui_log := ui_log s ++ [UiElement "header" (PStr "Settings")];
        messages := messages s |}).
Proof.
  intros Hf Hv. unfold select_mode.
  unfold bind at 1, st_emit at 1.
  unfold bind at 1. rewrite get_available_modes_run, Hf.
  unfold bind, lift. destruct v; try discriminate; reflexivity.
Qed.

(** X15: in a run where the readiness flag is computed, "Process PDFs" is
    not clicked and the modes call returns a decoded body that is not an
    object, the script raises [AttributeError] at the mode selector: the
    page stops after the "Settings" header, so the transcript is not
    displayed and the chat input is not handled; the transcript is left as
    it was (a prompt submitted for this run is not recorded) and the only
    requests are the status and the modes request. *)
Theorem app_aborts_on_bad_modes :
  forall net str i s ms ready v,
    messages s = Some ms ->
    fst (fetch_api_ready net s) = Ok ready ->
    button_clicked i = false ->
    fetch_result net modes_request = Ok v ->
    is_dict v = false ->
    app net str i s
    = (Raise AttributeError,
       {| net_log :=
            net_log s
            ++ [Get (API_URL ++ "/status/")%string;
                Get (API_URL ++ "/modes/")%string];
          ui_log :=
            ui_log s
            ++ [UiElement "title" (PStr "LightRAG - BulkChat");
                UiElement "header" (PStr "Upload PDFs");
                UiElement "divider" PNone;
                UiElement "header" (PStr "Settings")];
          messages := Some ms |}).
Proof.
  intros net str i s ms ready v Hms Hready Hbtn Hf Hv.
  rewrite fetch_api_ready_run in Hready. cbn [fst] in Hready.
  rewrite app_page.
  unfold bind at 1, st_emit at 1.
  unfold bind at 1, init_session at 1. cbn [messages]. rewrite Hms.
  unfold bind at 1. rewrite fetch_api_ready_run, Hready.
  unfold page.
  unfold bind at 1, st_emit at 1.
  rewrite Hbtn.
  unfold bind at 1, ret at 1.
  unfold bind at 1, st_emit at 1.
  unfold bind at 1.
  rewrite (select_mode_bad_modes net str _ _ v Hf Hv).
  unfold log_request. cbn.
  rewrite <- !app_assoc. reflexivity.
Qed.

Lemma app_aborts_on_bad_modes_witness :
  app net_modes_list sample_str
    {| uploaded_files := []; button_clicked := false;
       selectbox_choice := None; chat_input := Some "hi" |}
    (session_with [user_entry "old"])
  = (Raise AttributeError,
     {| net_log :=
          net_log (session_with [user_entry "old"])
          ++ [Get (API_URL ++ "/status/")%string;
              Get (API_URL ++ "/modes/")%string];
        ui_log :=
          ui_log (session_with [user_entry "old"])
          ++ [UiElement "title" (PStr "LightRAG - BulkChat");
              UiElement "header" (PStr "Upload PDFs");
              UiElement "divider" PNone;
              UiElement "header" (PStr "Settings")];
        messages := Some [user_entry "old"] |}).
Proof.
  apply (app_aborts_on_bad_modes net_modes_list sample_str
           {| uploaded_files := []; button_clicked := false;
              selectbox_choice := None; chat_input := Some "hi" |}
           (session_with [user_entry "old"]) [user_entry "old"] true
           (PList []));
    reflexivity.
Defined.

(** ** What the chat handler shows *)

Lemma chat_input_handler_prefix net str ready mode prompt s ms :
  messages s = Some ms ->
  chat_input_handler net str ready mode prompt s =
    (if ready then
       response <- query_rag net prompt mode ;;
       has_response <- lift (py_contains "response" response) ;;
       if has_response then
         result <- lift (py_getitem response "response") ;;
         st_emit (UiElement "write" result) ;;;
         messages_append (assistant_entry result)
       else
         error_msg <- lift (py_get response "message"
                              (PStr "Unknown error occurred")) ;;
         st_emit (UiElement "error"
                    (PStr ("Error: " ++ format_value str error_msg)%string)) ;;;
         messages_append
           (assistant_entry
              (PStr ("Error: " ++ format_value str error_msg)%string))
     else
       st_emit (UiElement "warning" (PStr not_ready_warning)) ;;;
       messages_append (assistant_entry (PStr not_ready_warning)))
      {| net_log := net_log s;
         ui_log := ui_log s
                   ++ [UiChatMessage "user"; UiElement "write" (PStr prompt);
                       UiChatMessage "assistant"; UiSpinner "Thinking..."];
         messages := Some (ms ++ [user_entry prompt]) |}.
Proof.
  intros Hms.
  unfold chat_input_handler.
  unfold bind at 1, messages_append at 1. rewrite Hms.
  do 4 (unfold bind at 1, st_emit at 1; cbn [net_log ui_log messages]).
  rewrite <- !app_assoc. reflexivity.
Qed.

(** X16: when the chat handler completes, the page shows the prompt under
    "user" and, under "assistant", one element (written, error or warning)
    whose text is the very content of the assistant entry appended to the
    transcript: what the user sees in this run is what the transcript
    will show in the next. *)
Theorem chat_input_handler_echo :
  forall net str ready mode prompt s s',
    chat_input_handler net str ready mode prompt s = (Ok tt, s') ->
    exists ms kind c,
      messages s = Some ms
      /\ messages s'
         = Some (ms ++ [{| role := "user"; content := PStr prompt |};
                        {| role := "assistant"; content := c |}])
      /\ ui_log s'
         = ui_log s
           ++ [UiChatMessage "user"; UiElement "write" (PStr prompt);
               UiChatMessage "assistant"; UiSpinner "Thinking...";
               UiElement kind c]
      /\ (kind = "write" \/ kind = "error" \/ kind = "warning").
Proof.
  intros net str ready mode prompt s s' Hrun.
  destruct (messages s) as [ms|] eqn:Hms.
  2:{ unfold chat_input_handler, bind, messages_append in Hrun.
      rewrite Hms in Hrun. discriminate. }
  exists ms.
  rewrite (chat_input_handler_prefix net str ready mode prompt s ms Hms) in Hrun.
  destruct ready.
  - unfold bind at 1 in Hrun. rewrite query_rag_run in Hrun.
    destruct (caught _) as [v|e]; [|discriminate].
    unfold bind, lift, st_emit, messages_append in Hrun.
    destruct (py_contains "response" v) as [[]|e]; [| |discriminate].
    + destruct (py_getitem v "response") as [a|e]; [|discriminate].
      cbn in Hrun. injection Hrun as <-.
      exists "write", a. cbn.
      rewrite <- !app_assoc.
      do 3 (split; [reflexivity|]). auto.
    + destruct (py_get v "message" _) as [m|e]; [|discriminate].
      cbn in Hrun. injection Hrun as <-.
      exists "error", (PStr ("Error: " ++ format_value str m)%string). cbn.
      rewrite <- !app_assoc.
      do 3 (split; [reflexivity|]). auto.
  - unfold bind, st_emit, messages_append in Hrun.
    cbn in Hrun. injection Hrun as <-.
    exists "warning", (PStr not_ready_warning). cbn.
    rewrite <- !app_assoc.
      do 3 (split; [reflexivity|]). auto.
Qed.

Lemma chat_input_handler_echo_witness :
  exists ms kind c,
    messages (session_with []) = Some ms
    /\ messages (snd (chat_input_handler (net_down "refused") sample_str true
                        (PStr "hybrid") "hi" (session_with [])))
       = Some (ms ++ [{| role := "user"; content := PStr "hi" |};
                      {| role := "assistant"; content := c |}])
    /\ ui_log (snd (chat_input_handler (net_down "refused") sample_str true
                      (PStr "hybrid") "hi" (session_with [])))
       = ui_log (session_with [])
         ++ [UiChatMessage "user"; UiElement "write" (PStr "hi");
             UiChatMessage "assistant"; UiSpinner "Thinking...";
             UiElement kind c]
    /\ (kind = "write" \/ kind = "error" \/ kind = "warning").
Proof.
  apply (chat_input_handler_echo (net_down "refused") sample_str true
           (PStr "hybrid") "hi" (session_with [])).
  reflexivity.
Defined.
